(** * PROF TO BOT: recording, transcription and summarisation pipeline

    A shallow embedding of [app.py]: the [AudioRecorder] class with its
    background capture thread, the [GroqAPI] chat-completion client,
    [transcribe_audio], [save_summary] and the "Transcribe and Summarize"
    handler of [main].  Definitions come first, theorems follow. *)

From Stdlib Require Import ZArith Ascii String.
From stdpp Require Import gmap strings list pretty.

Local Open Scope Z_scope.
Set Warnings "-register-all".

(** ** Python values, exceptions and logging *)

Module Py.

(** An exception instance: its class name, [str(e)], whether it is an
    instance of [Exception] (what [except Exception] catches; not so for
    [KeyboardInterrupt], [SystemExit] and other direct subclasses of
    [BaseException]), and the status code of the response attached to it
    ([e.response.status_code]), which [requests] sets on its
    [HTTPError]. *)
Record exn := mkExn {
  exn_class : string;
  exn_str : string;
  is_exception : bool;
  exn_status : option Z
}.

(** An ordinary exception: an [Exception] instance with no response. *)
Abbreviation Exn cls msg := (mkExn cls msg true None).

(** Outcome of a Python call: a returned value or a raised exception. *)
Inductive result (A : Type) : Type :=
| Return (a : A)
| Raise (e : exn).
Global Arguments Return {A} a.
Global Arguments Raise {A} e.

Definition is_raise {A} (r : result A) : bool :=
  match r with Return _ => false | Raise _ => true end.

Definition error_of {A} (r : result A) : option exn :=
  match r with Return _ => None | Raise e => Some e end.

Definition rbind {A B} (r : result A) (k : A → result B) : result B :=
  match r with Return a => k a | Raise e => Raise e end.

(** Records emitted through [logger]. *)
Inductive level := INFO | WARNING | ERROR.
Definition log_record : Type := level * string.

Definition nl : string := String "010"%char EmptyString.
Definition dq : string := String "034"%char EmptyString.

(** [", ".join(xs)] *)
Fixpoint join (sep : string) (xs : list string) : string :=
  match xs with
  | [] => ""
  | [x] => x
  | x :: rest => x +:+ sep +:+ join sep rest
  end.

(** Truthiness of a [str]. *)
Definition str_truthy (s : string) : bool :=
  match s with EmptyString => false | String _ _ => true end.

End Py.
Import Py.

(** ** class AudioRecorder *)

Module Recorder.

(** One block of samples handed to the driver callback ([indata.copy()]);
    a sample is kept as the bit pattern of its 32-bit float. *)
Definition Chunk : Type := list Z.

Record AudioRecorder := mkRecorder {
  SAMPLE_RATE : Z;
  DURATION : Z;
  recording : bool;
  frames : list Chunk
}.

(** [__init__] *)
Definition init : AudioRecorder :=
  {| SAMPLE_RATE := 44100; DURATION := 5; recording := false; frames := [] |}.

(** Where a thread running [_record] stands: created but not yet inside
    the [with sd.InputStream(...)] block, inside it (stream open, the
    callback may fire), or returned. *)
Inductive producer := Spawned | Streaming | Exited.

(** The recorder object together with the threads [start_recording] has
    spawned (in spawn order) and the log. *)
Record session := mkSession {
  recorder : AudioRecorder;
  threads : list producer;
  log : list log_record
}.

Definition fresh : session :=
  {| recorder := init; threads := []; log := [] |}.

Definition set_recording (b : bool) (r : AudioRecorder) : AudioRecorder :=
  {| SAMPLE_RATE := SAMPLE_RATE r; DURATION := DURATION r;
     recording := b; frames := frames r |}.

Definition set_frames (fs : list Chunk) (r : AudioRecorder) : AudioRecorder :=
  {| SAMPLE_RATE := SAMPLE_RATE r; DURATION := DURATION r;
     recording := recording r; frames := fs |}.

Definition emit (l : level) (msg : string) (s : session) : session :=
  {| recorder := recorder s; threads := threads s; log := log s ++ [(l, msg)] |}.

Definition with_recorder (f : AudioRecorder → AudioRecorder) (s : session) : session :=
  {| recorder := f (recorder s); threads := threads s; log := log s |}.

Definition with_threads (f : list producer → list producer) (s : session) : session :=
  {| recorder := recorder s; threads := f (threads s); log := log s |}.

(** [start_recording]: [spawn] is the outcome of
    [threading.Thread(target=self._record, daemon=True).start()], whose
    error is a [RuntimeError].  The two assignments precede it inside the
    [try], so they are kept when the spawn raises and the handler logs
    and re-raises. *)
Definition start_recording (spawn : result unit) (s : session) : session * result unit :=
  let s1 := with_recorder (set_recording true) s in
  let s2 := with_recorder (set_frames []) s1 in
  match spawn with
  | Return _ =>
      let s3 := with_threads (λ ts, ts ++ [Spawned]) s2 in
      (emit INFO "Recording started successfully" s3, Return tt)
  | Raise e =>
      (emit ERROR ("Failed to start recording: " +:+ exn_str e) s2, Raise e)
  end.

(** [stop_recording]: clears the flag, logs, returns [None]. *)
Definition stop_recording (s : session) : session * result unit :=
  let s1 := with_recorder (set_recording false) s in
  (emit INFO "Recording stopped" s1, Return tt).

(** The atomic steps of one thread running [_record]. *)
Inductive record_step :=
| EnterStream (opened : result unit)  (* entering [with sd.InputStream(...)] *)
| LoopTest                            (* evaluating [while self.recording] *)
| StreamFault (e : exn).              (* an exception raised inside the block *)

(** [_record], one step of thread [tid].  [None]: the step is not
    enabled for that thread.  Every exception is caught by the method's
    own handler, logged, and ends the thread. *)
Definition _record (tid : nat) (st : record_step) (s : session) : option session :=
  match threads s !! tid, st with
  | Some Spawned, EnterStream (Return _) =>
      Some (with_threads (<[tid := Streaming]>) s)
  | Some Spawned, EnterStream (Raise e) =>
      Some (emit ERROR ("Error during recording: " +:+ exn_str e)
              (with_threads (<[tid := Exited]>) s))
  | Some Streaming, LoopTest =>
      if recording (recorder s)
      then Some s                                   (* sd.sleep(1000) *)
      else Some (with_threads (<[tid := Exited]>) s)
  | Some Streaming, StreamFault e =>
      Some (emit ERROR ("Error during recording: " +:+ exn_str e)
              (with_threads (<[tid := Exited]>) s))
  | _, _ => None
  end.

(** [_audio_callback(indata, frames, time, status)]; [status] is the
    list of set callback flags, truthy when not empty. *)
Definition _audio_callback (indata : Chunk) (nframes : Z) (time : Z)
    (status : list string) (s : session) : session :=
  let s1 := match status with
            | [] => s
            | _ => emit WARNING (join ", " status) s
            end in
  with_recorder (λ r, set_frames (frames r ++ [indata]) r) s1.

(** What can happen to a session: calls from the control thread, steps
    of a capture thread, and the driver invoking the callback of the
    stream opened by thread [tid]. *)
Inductive event :=
| CallStart (spawn : result unit)
| CallStop
| Thread (tid : nat) (st : record_step)
| Deliver (tid : nat) (indata : Chunk) (status : list string).

Definition step (e : event) (s : session) : option session :=
  match e with
  | CallStart spawn => Some (fst (start_recording spawn s))
  | CallStop => Some (fst (stop_recording s))
  | Thread tid st => _record tid st s
  | Deliver tid indata status =>
      match threads s !! tid with
      | Some Streaming =>
          Some (_audio_callback indata (Z.of_nat (length indata)) 0 status s)
      | _ => None
      end
  end.

Fixpoint run (tr : list event) (s : session) : option session :=
  match tr with
  | [] => Some s
  | e :: rest =>
      match step e s with
      | Some s' => run rest s'
      | None => None
      end
  end.

Definition is_start (e : event) : bool :=
  match e with CallStart _ => true | _ => false end.

(** The chunks the driver handed over along a trace, in arrival order. *)
Fixpoint delivered (tr : list event) : list Chunk :=
  match tr with
  | [] => []
  | Deliver _ indata _ :: rest => indata :: delivered rest
  | _ :: rest => delivered rest
  end.

Definition all_exited (s : session) : bool :=
  forallb (λ p, match p with Exited => true | _ => false end) (threads s).

End Recorder.

(** ** JSON values as Python sees them after [response.json()] *)

Module Json.

Inductive json :=
| JNull
| JBool (b : bool)
| JInt (n : Z)
| JFloat (mantissa exponent : Z)      (* the decimal literal m * 10^e *)
| JStr (s : string)
| JArr (items : list json)
| JObj (fields : list (string * json)).

Inductive key := KStr (k : string) | KInt (i : Z).

Definition KeyError (k : string) : exn := Exn "KeyError" ("'" +:+ k +:+ "'").
Definition IndexError (what : string) : exn :=
  Exn "IndexError" (what +:+ " index out of range").
Definition TypeError (msg : string) : exn := Exn "TypeError" msg.

(** [d[k]] on a dict whose keys are all strings. *)
Fixpoint dict_get (fields : list (string * json)) (k : string) : option json :=
  match fields with
  | [] => None
  | (k', v) :: rest => if String.eqb k' k then Some v else dict_get rest k
  end.

(** Python's index normalisation: [-1] is the last element. *)
Definition norm_index (len : nat) (i : Z) : option nat :=
  let n := Z.of_nat len in
  if (0 <=? i) && (i <? n) then Some (Z.to_nat i)
  else if (i <? 0) && (0 <=? i + n) then Some (Z.to_nat (i + n))
  else None.

Fixpoint string_nth (s : string) (n : nat) : option string :=
  match s, n with
  | EmptyString, _ => None
  | String c _, O => Some (String c EmptyString)
  | String _ rest, S m => string_nth rest m
  end.

(** [v[k]] *)
Definition subscript (v : json) (k : key) : result json :=
  match v, k with
  | JObj fields, KStr s =>
      match dict_get fields s with
      | Some x => Return x
      | None => Raise (KeyError s)
      end
  | JObj _, KInt i => Raise (Exn "KeyError" (pretty i))
  | JArr items, KInt i =>
      match norm_index (length items) i with
      | Some n =>
          match items !! n with
          | Some x => Return x
          | None => Raise (IndexError "list")
          end
      | None => Raise (IndexError "list")
      end
  | JArr _, KStr _ =>
      Raise (TypeError "list indices must be integers or slices, not str")
  | JStr s, KInt i =>
      match norm_index (String.length s) i with
      | Some n =>
          match string_nth s n with
          | Some c => Return (JStr c)
          | None => Raise (IndexError "string")
          end
      | None => Raise (IndexError "string")
      end
  | JStr _, KStr _ => Raise (TypeError "string indices must be integers, not 'str'")
  | JNull, _ => Raise (TypeError "'NoneType' object is not subscriptable")
  | JBool _, _ => Raise (TypeError "'bool' object is not subscriptable")
  | JInt _, _ => Raise (TypeError "'int' object is not subscriptable")
  | JFloat _ _, _ => Raise (TypeError "'float' object is not subscriptable")
  end.

(** [v[k1][k2]...] *)
Fixpoint lookup_path (v : json) (ks : list key) : result json :=
  match ks with
  | [] => Return v
  | k :: rest => rbind (subscript v k) (λ x, lookup_path x rest)
  end.

(** [v + "\n"]: defined on [str] only. *)
Definition add_str (v : json) (s : string) : result string :=
  match v with
  | JStr t => Return (t +:+ s)
  | JNull => Raise (TypeError "unsupported operand type(s) for +: 'NoneType' and 'str'")
  | JBool _ => Raise (TypeError "unsupported operand type(s) for +: 'bool' and 'str'")
  | JInt _ => Raise (TypeError "unsupported operand type(s) for +: 'int' and 'str'")
  | JFloat _ _ => Raise (TypeError "unsupported operand type(s) for +: 'float' and 'str'")
  | JArr _ => Raise (TypeError ("can only concatenate list (not " +:+ dq +:+ "str" +:+ dq +:+ ") to list"))
  | JObj _ => Raise (TypeError "unsupported operand type(s) for +: 'dict' and 'str'")
  end.

End Json.
Import Json.

(** ** The world outside the recorder *)

Module World.

(** [datetime.datetime.now()] *)
Record datetime := mkDatetime {
  year : nat; month : nat; day : nat;
  hour : nat; minute : nat; second : nat
}.

(** Result of [model.transcribe(audio_file)]: the keys of the returned
    dict the program can see. *)
Record whisper_result := mkWhisperResult {
  text : string;
  language : string
}.

(** What [requests.post] hands back. [body] is [None] when the payload
    is not JSON, and [decode_error] is then the message of the decoder's
    error. *)
Record response := mkResponse {
  status_code : Z;
  reason : string;
  resp_url : string;
  body : option json;
  decode_error : string
}.

Record request := mkRequest {
  method : string;
  url : string;
  headers : list (string * string);
  payload : json
}.

(** The collaborators the program calls into. *)
Record env := mkEnv {
  import_whisper : result unit;                       (* [import whisper] *)
  load_model : string → result unit;                  (* [whisper.load_model] *)
  model_transcribe : string → result whisper_result;  (* [model.transcribe] *)
  requests_post : request → result response;          (* [requests.post] *)
  now : datetime;                                     (* the clock *)
  open_append : string → result unit;                 (* [open(filename, "a")] *)
  can_encode : ascii → bool;          (* the file encoding takes this non-ASCII character *)
  encode_error : string → string      (* [str(e)] of the codec's error on a text *)
}.

Inductive ui_event :=
| st_spinner (msg : string)
| st_markdown (msg : string)
| st_write (v : json)
| st_success (msg : string)
| st_error (msg : string).

(** Everything the program changes: the files it writes, the log, the
    HTTP requests it has issued and what it has rendered. *)
Record world := mkWorld {
  files : gmap string string;
  logged : list log_record;
  posted : list request;
  rendered : list ui_event
}.

Definition empty_world : world :=
  {| files := ∅; logged := []; posted := []; rendered := [] |}.

(** Computations that change the world and may raise. *)
Definition M (A : Type) : Type := world → world * result A.

Definition ret {A} (a : A) : M A := λ w, (w, Return a).
Definition raise {A} (e : exn) : M A := λ w, (w, Raise e).
Definition bind {A B} (m : M A) (k : A → M B) : M B :=
  λ w, match m w with
       | (w', Return a) => k a w'
       | (w', Raise e) => (w', Raise e)
       end.
(** [try: body  except Exception as e: handler e]: an exception that is
    not an [Exception] instance passes through. *)
Definition try_except {A} (body : M A) (handler : exn → M A) : M A :=
  λ w, match body w with
       | (w', Return a) => (w', Return a)
       | (w', Raise e) => if is_exception e then handler e w' else (w', Raise e)
       end.
Definition lift {A} (r : result A) : M A := λ w, (w, r).

Definition logger (l : level) (msg : string) : M unit :=
  λ w, ({| files := files w; logged := logged w ++ [(l, msg)];
           posted := posted w; rendered := rendered w |}, Return tt).

Definition st (e : ui_event) : M unit :=
  λ w, ({| files := files w; logged := logged w;
           posted := posted w; rendered := rendered w ++ [e] |}, Return tt).

Definition record_post (r : request) : M unit :=
  λ w, ({| files := files w; logged := logged w;
           posted := posted w ++ [r]; rendered := rendered w |}, Return tt).

(** Whether the encoding of a text file takes a text: the ASCII
    characters always, the others as the environment says. *)
Definition encodable_char (E : env) (c : ascii) : bool :=
  (nat_of_ascii c <? 128)%nat || can_encode E c.

Fixpoint encodable (E : env) (s : string) : bool :=
  match s with
  | EmptyString => true
  | String c rest => encodable_char E c && encodable E rest
  end.

(** [file.write(s)] on a file opened in append mode, seen once the
    [with] block has closed it.  The text is encoded first: when the
    encoding does not take it, [UnicodeEncodeError] is raised and none of
    it is written.  Writes that fail below the encoder are outside the
    model; the open is the operating-system failure it has. *)
Definition file_write (E : env) (filename s : string) : M unit :=
  λ w, if encodable E s then
         ({| files := <[filename := default "" (files w !! filename) +:+ s]> (files w);
             logged := logged w; posted := posted w; rendered := rendered w |},
          Return tt)
       else (w, Raise (Exn "UnicodeEncodeError" (encode_error E s))).

(** Opening in append mode creates the file when it is missing. *)
Definition file_touch (E : env) (filename : string) : M unit :=
  file_write E filename "".

End World.
Import World.

(** The program is written in stdpp's monad notation: [x ← m; k] and
    [m;; k]. *)
#[global] Instance M_ret : MRet M := @ret.
#[global] Instance M_bind : MBind M := λ A B k m, bind m k.

(** ** class GroqAPI *)

Module Groq.

Record GroqAPI := mkGroqAPI { api_key : string; base_url : string }.

(** [__init__] *)
Definition new (api_key : string) : GroqAPI :=
  {| api_key := api_key; base_url := "https://api.groq.com/openai" |}.

Definition system_prompt : string :=
  "You are a helpful assistant that creates concise summaries.".

Definition indent : string := "                     ".

(** The literal part of the user message's f-string. *)
Definition template : string :=
  "Please provide a concise summary of the following text: -MAIN TOPICS AND KEY POINTS" +:+ nl +:+
  indent +:+ "IMPORTANT CONCEPTS AND DEFINITIONS" +:+ nl +:+
  indent +:+ "-ANY SIGNIFICANT EXAMPLES MENTIONED" +:+ nl +:+
  indent +:+ "-KEY TAKEAWAYS" +:+ nl +:+
  indent +:+ "HERE IS THE TEXT".

Definition build_headers (self : GroqAPI) : list (string * string) :=
  [ ("Authorization", "Bearer " +:+ api_key self);
    ("Content-Type", "application/json") ].

Definition build_payload (text : string) : json :=
  JObj [ ("model", JStr "mixtral-8x7b-32768");
         ("messages", JArr [
            JObj [("role", JStr "system"); ("content", JStr system_prompt)];
            JObj [("role", JStr "user"); ("content", JStr (template +:+ text))] ]);
         ("temperature", JFloat 7 (-1));
         ("max_tokens", JInt 500) ].

(** [response.raise_for_status()]: the [HTTPError] it raises carries the
    response, and with it the status code. *)
Definition raise_for_status (r : response) : result unit :=
  let code := status_code r in
  if (400 <=? code) && (code <? 500) then
    Raise (mkExn "HTTPError" (pretty code +:+ " Client Error: " +:+ reason r
                               +:+ " for url: " +:+ resp_url r) true (Some code))
  else if (500 <=? code) && (code <? 600) then
    Raise (mkExn "HTTPError" (pretty code +:+ " Server Error: " +:+ reason r
                               +:+ " for url: " +:+ resp_url r) true (Some code))
  else Return tt.

(** [response.json()] *)
Definition response_json (r : response) : result json :=
  match body r with
  | Some v => Return v
  | None => Raise (Exn "JSONDecodeError" (decode_error r))
  end.

(** [data["choices"][0]["message"]["content"]] *)
Definition extract_content (data : json) : result json :=
  rbind (subscript data (KStr "choices")) (λ choices,
  rbind (subscript choices (KInt 0)) (λ first,
  rbind (subscript first (KStr "message")) (λ message,
  subscript message (KStr "content")))).

(** The request [summarize_text] builds. *)
Definition build_request (self : GroqAPI) (text : string) : request :=
  {| method := "POST";
     url := base_url self +:+ "/v1/chat/completions";
     headers := build_headers self;
     payload := build_payload text |}.

Section WithEnv.
Variable E : env.

(** [requests.post(url, headers=..., json=...)] *)
Definition post (u : string) (hs : list (string * string)) (js : json) : M response :=
  let r := {| method := "POST"; url := u; headers := hs; payload := js |} in
  record_post r;; lift (requests_post E r).

Definition summarize_text (self : GroqAPI) (text : string) : M json :=
  try_except
    (let hs := build_headers self in
     let pl := build_payload text in
     resp ← post (base_url self +:+ "/v1/chat/completions") hs pl;
     lift (raise_for_status resp);;
     data ← lift (response_json resp);
     lift (extract_content data))
    (λ e, logger ERROR ("Error during summarization: " +:+ exn_str e);;
          raise e).

(** The value or exception [summarize_text] ends with, the world set
    aside: the [try] body read as a chain of outcomes. *)
Definition summarize_outcome (self : GroqAPI) (text : string) : result json :=
  rbind (requests_post E (build_request self text)) (λ resp,
  rbind (raise_for_status resp) (λ _,
  rbind (response_json resp) extract_content)).

End WithEnv.

End Groq.

(** ** Module-level functions and the handler in [main] *)

Module App.

(** One decimal digit of [n], as a character. *)
Definition digit (n : nat) : ascii := ascii_of_nat (48 + n `mod` 10).

(** [%m], [%d], [%H], [%M], [%S]: two digits, zero padded. *)
Definition pad2 (n : nat) : string :=
  String (digit (n `div` 10)) (String (digit n) EmptyString).

(** [%Y] for the years [datetime.now()] can return: four digits. *)
Definition pad4 (n : nat) : string :=
  String (digit (n `div` 1000)) (String (digit (n `div` 100))
    (String (digit (n `div` 10)) (String (digit n) EmptyString))).

(** [strftime("%Y-%m-%d %H:%M:%S")] *)
Definition strftime (t : datetime) : string :=
  pad4 (year t) +:+ "-" +:+ pad2 (month t) +:+ "-" +:+ pad2 (day t) +:+ " " +:+
  pad2 (hour t) +:+ ":" +:+ pad2 (minute t) +:+ ":" +:+ pad2 (second t).

Definition default_notes : string := "class_notes.txt".

Section WithEnv.
Variable E : env.

Definition transcribe_audio (audio_file : string) : M (option string) :=
  try_except
    (lift (import_whisper E);;
     lift (load_model E "base");;
     result ← lift (model_transcribe E audio_file);
     mret (Some (text result)))
    (λ e, logger ERROR ("Error during transcription: " +:+ exn_str e);;
          mret None).

(** The outcome of the three engine calls in the [try] body of
    [transcribe_audio]. *)
Definition engine_outcome (audio_file : string) : result whisper_result :=
  rbind (import_whisper E) (λ _,
  rbind (load_model E "base") (λ _,
  model_transcribe E audio_file)).

(** The second [file.write] evaluates [summary + "\n"] first; when that
    raises, the [with] block still closes the file, so the header
    already written stays in it. *)
Definition save_summary (summary : json) (filename : string) : M unit :=
  try_except
    (let timestamp := strftime (now E) in
     lift (open_append E filename);;
     file_touch E filename;;
     file_write E filename (nl +:+ "--- Summary from " +:+ timestamp +:+ " ---" +:+ nl);;
     line ← lift (add_str summary nl);
     file_write E filename line;;
     logger INFO ("Summary saved to " +:+ filename))
    (λ e, logger ERROR ("Failed to save summary: " +:+ exn_str e);;
          raise e).

(** Truthiness of [transcription], an [Optional[str]]. *)
Definition truthy (t : option string) : bool :=
  match t with
  | Some s => str_truthy s
  | None => false
  end.

(** What the [else] branch of [if transcription:] renders. *)
Definition failed_msg : ui_event :=
  st_error "Transcription failed. Please try recording again.".

(** Body of [if st.button("Transcribe and Summarize"):] in [main].
    [groq_api_key] is bound in [main] to a literal that is not empty; it
    is a parameter here, and [last_file] is [recorded_files[-1]]. *)
Definition transcribe_and_summarize (groq_api_key last_file : string) : M unit :=
  if negb (str_truthy groq_api_key) then
    st (st_error "Please enter your Groq API key in the sidebar.")
  else
    st (st_spinner "Transcribing audio...");;
    transcription ← transcribe_audio last_file;
    if truthy transcription then
      let t := default "" transcription in
      st (st_markdown "### Transcription");;
      st (st_write (JStr t));;
      st (st_spinner "Generating summary...");;
      try_except
        (let groq := Groq.new groq_api_key in
         summary ← Groq.summarize_text E groq t;
         st (st_markdown "### Summary");;
         st (st_write summary);;
         save_summary summary default_notes;;
         st (st_success "Summary saved to class_notes.txt"))
        (λ e, st (st_error ("Failed to generate summary: " +:+ exn_str e)))
    else
      st failed_msg.

End WithEnv.

End App.

(** ** Sample collaborators used in the worked examples *)

Module Sample.

Definition endpoint : string := "https://api.groq.com/openai/v1/chat/completions".

Definition noon : datetime := mkDatetime 2026 11 3 12 0 0.
Definition later : datetime := mkDatetime 2026 11 3 12 0 9.

(** A well-formed completion carrying [s]. *)
Definition completion (s : string) : json :=
  JObj [("id", JStr "cmpl-1");
        ("choices", JArr [JObj [("index", JInt 0);
                                ("message", JObj [("role", JStr "assistant");
                                                  ("content", JStr s)])]])].

(** An environment where the engine hears [heard], the endpoint answers
    [answer] and the clock shows [t]; the notes file opens and is written
    in an encoding that takes every character. *)
Definition env_with (heard : result whisper_result) (answer : result response)
    (t : datetime) : env :=
  {| import_whisper := Return tt;
     load_model := λ _, Return tt;
     model_transcribe := λ _, heard;
     requests_post := λ _, answer;
     now := t;
     open_append := λ _, Return tt;
     can_encode := λ _, true;
     encode_error := λ _, "" |}.

Definition heard_hello : result whisper_result :=
  Return (mkWhisperResult "hello world" "en").

Definition unauthorized : response :=
  mkResponse 401 "Unauthorized" endpoint
    (Some (JObj [("error", JObj [("message", JStr "Invalid API Key")])])) "".

Definition server_error : response :=
  mkResponse 500 "Internal Server Error" endpoint None
    "Expecting value: line 1 column 1 (char 0)".

Definition no_choices : response :=
  mkResponse 200 "OK" endpoint (Some (JObj [("id", JStr "cmpl-1")])) "".

Definition multiple_choices : response :=
  mkResponse 300 "Multiple Choices" endpoint (Some (completion "Summary: hello")) "".

Definition ok_hello : response :=
  mkResponse 200 "OK" endpoint (Some (completion "Summary: hello")) "".

Definition connection_refused : exn :=
  Exn "ConnectionError" "Connection refused".

End Sample.

(** ** [AudioRecorder.save_recording] and the disk it writes to *)

Module Studio.
Import Recorder.

(** The two library calls [save_recording] makes. *)
Record device := mkDevice {
  makedirs : string → result unit;                    (* [os.makedirs(name, exist_ok=True)] *)
  sf_write : string → list Chunk → Z → result unit    (* [sf.write(file, data, samplerate)] *)
}.

Definition starts_with_sep (s : string) : bool :=
  match s with
  | String c _ => if Ascii.eqb c "/" then true else false
  | EmptyString => false
  end.

Fixpoint ends_with_sep (s : string) : bool :=
  match s with
  | EmptyString => false
  | String c EmptyString => Ascii.eqb c "/"
  | String _ rest => ends_with_sep rest
  end.

(** [os.path.join(a, b)] on POSIX. *)
Definition path_join (a b : string) : string :=
  if starts_with_sep b then b
  else if negb (str_truthy a) || ends_with_sep a then a +:+ b
  else a +:+ "/" +:+ b.

(** The recorder with its threads and log, the directories created so
    far, and for every path the data and sample rate the last successful
    [sf.write] to it was given.  What a failed [sf.write] leaves on disk
    is not recorded. *)
Record studio := mkStudio {
  sess : session;
  dirs : gset string;
  audio : gmap string (list Chunk * Z)
}.

Definition studio_emit (l : level) (msg : string) (st : studio) : studio :=
  {| sess := emit l msg (sess st); dirs := dirs st; audio := audio st |}.

Definition save_recording (D : device) (filename : string) (st : studio)
    : studio * result string :=
  match makedirs D "recordings" with
  | Raise e =>
      (studio_emit ERROR ("Failed to save recording: " +:+ exn_str e) st, Raise e)
  | Return _ =>
      let st1 := {| sess := sess st; dirs := {["recordings"]} ∪ dirs st;
                    audio := audio st |} in
      let filepath := path_join "recordings" filename in
      let self := recorder (sess st) in
      match sf_write D filepath (frames self) (SAMPLE_RATE self) with
      | Raise e =>
          (studio_emit ERROR ("Failed to save recording: " +:+ exn_str e) st1, Raise e)
      | Return _ =>
          (studio_emit INFO ("Recording saved to " +:+ filepath)
             {| sess := sess st1; dirs := dirs st1;
                audio := <[filepath := (frames self, SAMPLE_RATE self)]> (audio st1) |},
           Return filepath)
      end
  end.

(** How many calls of [start_recording] along a trace created a thread. *)
Fixpoint spawned (tr : list event) : nat :=
  match tr with
  | [] => 0
  | CallStart (Return _) :: rest => S (spawned rest)
  | _ :: rest => spawned rest
  end.

End Studio.

(** ** The button handlers of [main]

    The bodies of the three [if st.button(...):] blocks and the session
    state they work on.  The calls of [main] that only lay out the page
    (title, sidebar, columns, the recording banner and the audio player)
    change no state and are not part of the model. *)

Module Main.
Import Recorder Studio App.

(** [strftime("%Y%m%d_%H%M%S")] *)
Definition strftime_compact (t : datetime) : string :=
  pad4 (year t) +:+ pad2 (month t) +:+ pad2 (day t) +:+ "_" +:+
  pad2 (hour t) +:+ pad2 (minute t) +:+ pad2 (second t).

(** A date and time [datetime.now()] can return. *)
Definition valid_datetime (t : datetime) : bool :=
  ((1 <=? year t) && (year t <? 10 * 1000) &&
   (1 <=? month t) && (month t <=? 12) &&
   (1 <=? day t) && (day t <=? 31) &&
   (hour t <? 24) && (minute t <? 60) && (second t <? 60))%nat.

(** [st.session_state] after the initialisation at the top of [main],
    with the recorder's threads and disk, and the world of the pipeline. *)
Record app := mkApp {
  booth : studio;
  recording_status : bool;
  recorded_files : list string;
  page : world
}.

Definition initial : app :=
  {| booth := {| sess := fresh; dirs := ∅; audio := ∅ |};
     recording_status := false;
     recorded_files := [];
     page := empty_world |}.

Definition show (e : ui_event) (a : app) : app :=
  {| booth := booth a; recording_status := recording_status a;
     recorded_files := recorded_files a; page := (st e (page a)).1 |}.

(** Body of [if st.button("Start Recording", ...):] *)
Definition on_start (spawn : result unit) (a : app) : app :=
  match start_recording spawn (sess (booth a)) with
  | (s', Return _) =>
      {| booth := {| sess := s'; dirs := dirs (booth a); audio := audio (booth a) |};
         recording_status := true;
         recorded_files := recorded_files a; page := page a |}
  | (s', Raise e) =>
      show (st_error ("Failed to start recording: " +:+ exn_str e))
        {| booth := {| sess := s'; dirs := dirs (booth a); audio := audio (booth a) |};
           recording_status := recording_status a;
           recorded_files := recorded_files a; page := page a |}
  end.

(** Body of [if st.button("Stop Recording", ...):]; [t] is what
    [datetime.datetime.now()] returns there. *)
Definition on_stop (D : device) (t : datetime) (a : app) : app :=
  match stop_recording (sess (booth a)) with
  | (s1, Raise e) =>
      show (st_error ("Failed to stop recording: " +:+ exn_str e))
        {| booth := {| sess := s1; dirs := dirs (booth a); audio := audio (booth a) |};
           recording_status := recording_status a;
           recorded_files := recorded_files a; page := page a |}
  | (s1, Return _) =>
      let timestamp := strftime_compact t in
      let filename := "recording_" +:+ timestamp +:+ ".wav" in
      match save_recording D filename
              {| sess := s1; dirs := dirs (booth a); audio := audio (booth a) |} with
      | (b', Return filepath) =>
          show (st_success "Recording saved successfully!")
            {| booth := b'; recording_status := false;
               recorded_files := recorded_files a ++ [filepath]; page := page a |}
      | (b', Raise e) =>
          show (st_error ("Failed to stop recording: " +:+ exn_str e))
            {| booth := b'; recording_status := recording_status a;
               recorded_files := recorded_files a; page := page a |}
      end
  end.

(** [st.session_state.recorded_files[-1]], inside
    [if st.session_state.recorded_files:]. *)
Definition last_file (a : app) : option string := last (recorded_files a).

(** The "Transcribe and Summarize" button: it exists only when there is
    a latest recording. *)
Definition on_summarize (E : env) (groq_api_key : string) (a : app) : app :=
  match last_file a with
  | None => a
  | Some f =>
      {| booth := booth a; recording_status := recording_status a;
         recorded_files := recorded_files a;
         page := (transcribe_and_summarize E groq_api_key f (page a)).1 |}
  end.

(** What moves the application: the three buttons, and the capture
    threads and the audio driver running in the background.  A click is
    taken in every state, also where the page renders the button with
    [disabled=True]: the runs of [play] include those the page allows. *)
Inductive action :=
| StartClicked (spawn : result unit)
| StopClicked (D : device) (t : datetime)
| SummarizeClicked (E : env) (groq_api_key : string)
| Capture (tid : nat) (st : record_step)
| Audio (tid : nat) (indata : Chunk) (status : list string).

Definition background (e : event) (a : app) : option app :=
  match step e (sess (booth a)) with
  | Some s' =>
      Some {| booth := {| sess := s'; dirs := dirs (booth a); audio := audio (booth a) |};
              recording_status := recording_status a;
              recorded_files := recorded_files a; page := page a |}
  | None => None
  end.

Definition act (x : action) (a : app) : option app :=
  match x with
  | StartClicked spawn => Some (on_start spawn a)
  | StopClicked D t => Some (on_stop D t a)
  | SummarizeClicked E key => Some (on_summarize E key a)
  | Capture tid st => background (Thread tid st) a
  | Audio tid indata status => background (Deliver tid indata status) a
  end.

Fixpoint play (xs : list action) (a : app) : option app :=
  match xs with
  | [] => Some a
  | x :: rest =>
      match act x a with
      | Some a' => play rest a'
      | None => None
      end
  end.

Definition is_stop_click (x : action) : bool :=
  match x with StopClicked _ _ => true | _ => false end.

Definition is_summarize_click (x : action) : bool :=
  match x with SummarizeClicked _ _ => true | _ => false end.

(** The path the stop handler saves to at time [t]. *)
Definition recording_path (t : datetime) : string :=
  "recordings/recording_" +:+ strftime_compact t +:+ ".wav".

(** The header line [save_summary] writes at time [t], with the newline
    before and after it. *)
Definition header_of (t : datetime) : string :=
  nl +:+ "--- Summary from " +:+ strftime t +:+ " ---" +:+ nl.



(** Every text file of [m] is still there in [m'], with its old content
    at the front. *)
Definition extends (m m' : gmap string string) : Prop :=
  ∀ f c, m !! f = Some c → ∃ suffix, m' !! f = Some (c +:+ suffix).

(** A device whose calls never raise, and an action during which no
    library call of the recorder raises. *)
Definition reliable (D : device) : Prop :=
  (∀ name, makedirs D name = Return tt)
  ∧ (∀ file data rate, sf_write D file data rate = Return tt).

Definition clean (x : action) : Prop :=
  match x with
  | StartClicked spawn => spawn = Return tt
  | StopClicked D _ => reliable D
  | _ => True
  end.

End Main.

(** ** Sample devices used in the worked examples *)

Module Fixture.
Import Recorder Studio.

Definition good_device : device :=
  {| makedirs := λ _, Return tt; sf_write := λ _ _ _, Return tt |}.

Definition disk_full : exn := Exn "OSError" "[Errno 28] No space left on device".

Definition full_device : device :=
  {| makedirs := λ _, Return tt; sf_write := λ _ _ _, Raise disk_full |}.

Definition readonly_device : device :=
  {| makedirs := λ _, Raise (Exn "PermissionError" "[Errno 13] Permission denied: 'recordings'");
     sf_write := λ _ _ _, Return tt |}.

(** A booth whose recorder was just stopped while its one capture thread
    is still streaming, on an empty disk. *)
Definition stopped_booth : studio :=
  {| sess := (stop_recording
                {| recorder := set_recording true init;
                   threads := [Streaming]; log := [] |}).1;
     dirs := ∅; audio := ∅ |}.

Definition morning : datetime := mkDatetime 2026 11 3 9 5 7.

Definition null_content : response :=
  mkResponse 200 "OK" Sample.endpoint
    (Some (JObj [("choices", JArr [JObj [("message", JObj [("role", JStr "assistant");
                                                          ("content", JNull)])]])])) "".

(** Collaborators that all answer, with a notes file that cannot be
    opened. *)
Definition locked_notes : exn :=
  Exn "PermissionError" "[Errno 13] Permission denied: 'class_notes.txt'".

Definition locked_env : env :=
  {| import_whisper := Return tt;
     load_model := λ _, Return tt;
     model_transcribe := λ _, Sample.heard_hello;
     requests_post := λ _, Return Sample.ok_hello;
     now := Sample.noon;
     open_append := λ _, Raise locked_notes;
     can_encode := λ _, true;
     encode_error := λ _, "" |}.

(** Interrupting the program: not an [Exception] instance. *)
Definition keyboard_interrupt : exn := mkExn "KeyboardInterrupt" "" false None.



End Fixture.

(** * Properties of the recording session *)

Section RecorderFacts.
Import Recorder.

Lemma start_recording_state spawn s :
  recording (recorder (start_recording spawn s).1) = true
  ∧ frames (recorder (start_recording spawn s).1) = [].
Proof. by destruct spawn. Qed.

Lemma stop_recording_state s :
  recorder (stop_recording s).1 = set_recording false (recorder s)
  ∧ threads (stop_recording s).1 = threads s.
Proof. done. Qed.

Lemma record_keeps_recorder tid st s s' :
  _record tid st s = Some s' → recorder s' = recorder s.
Proof.
  unfold _record. intros H.
  destruct (threads s !! tid) as [[]|], st as [[]| |];
    try discriminate; simplify_eq/=; try done.
  by destruct (recording (recorder s)); simplify_eq.
Qed.

Lemma audio_callback_frames indata n t status s :
  frames (recorder (_audio_callback indata n t status s))
  = frames (recorder s) ++ [indata].
Proof. by destruct status. Qed.

Lemma audio_callback_recording indata n t status s :
  recording (recorder (_audio_callback indata n t status s))
  = recording (recorder s).
Proof. by destruct status. Qed.

Lemma audio_callback_threads indata n t status s :
  threads (_audio_callback indata n t status s) = threads s.
Proof. by destruct status. Qed.

(** A step other than a call to [start_recording] extends the buffer by
    exactly the chunk it delivers, if any. *)
Lemma step_frames e s s' :
  is_start e = false → step e s = Some s' →
  frames (recorder s') = frames (recorder s) ++ delivered [e].
Proof.
  destruct e as [spawn| |tid st|tid indata status]; simpl; intros Hns H;
    try discriminate.
  - simplify_eq/=. by rewrite app_nil_r.
  - apply record_keeps_recorder in H. by rewrite H, app_nil_r.
  - destruct (threads s !! tid) as [[]|]; try discriminate.
    simplify_eq. apply audio_callback_frames.
Qed.

Lemma delivered_cons e tr : delivered (e :: tr) = delivered [e] ++ delivered tr.
Proof. by destruct e. Qed.

Lemma run_frames tr : ∀ s s',
  forallb (λ e, negb (is_start e)) tr = true → run tr s = Some s' →
  frames (recorder s') = frames (recorder s) ++ delivered tr.
Proof.
  induction tr as [|e tr IH]; intros s s' Hns Hrun.
  - simpl in *. simplify_eq. by rewrite app_nil_r.
  - simpl in Hns. apply andb_true_iff in Hns as [He Htr].
    apply negb_true_iff in He. simpl in Hrun.
    destruct (step e s) as [s1|] eqn:Hstep; [|done].
    rewrite (IH _ _ Htr Hrun), (step_frames _ _ _ He Hstep).
    by rewrite (delivered_cons e tr), app_assoc.
Qed.

Lemma all_exited_lookup s tid p :
  all_exited s = true → threads s !! tid = Some p → p = Exited.
Proof.
  unfold all_exited. rewrite forallb_forall. intros Hall Hp.
  assert (In p (threads s)) as Hin.
  { apply list_elem_of_In, list_elem_of_lookup. eauto. }
  specialize (Hall _ Hin). by destruct p.
Qed.

(** With every capture thread returned, only [start_recording] can touch
    the buffer again. *)
Lemma quiescent_step e s s' :
  all_exited s = true → is_start e = false → step e s = Some s' →
  frames (recorder s') = frames (recorder s) ∧ all_exited s' = true.
Proof.
  intros Hall Hns Hstep.
  destruct e as [spawn| |tid st|tid indata status]; simpl in *; try discriminate.
  - by simplify_eq.
  - unfold _record in Hstep.
    destruct (threads s !! tid) as [p|] eqn:Hp; [|by destruct st as [[]| |]].
    rewrite (all_exited_lookup _ _ _ Hall Hp) in Hstep.
    by destruct st as [[]| |].
  - destruct (threads s !! tid) as [p|] eqn:Hp; [|done].
    by rewrite (all_exited_lookup _ _ _ Hall Hp) in Hstep.
Qed.

(** Once the flag is cleared, the next loop test of a streaming thread
    ends it. *)
Lemma loop_test_after_stop tid s :
  recording (recorder s) = false → threads s !! tid = Some Streaming →
  ∃ s', _record tid LoopTest s = Some s'
        ∧ threads s' !! tid = Some Exited
        ∧ recorder s' = recorder s.
Proof.
  intros Hrec Hth. unfold _record. rewrite Hth, Hrec.
  eexists; split; [done|]. split; [|done]. simpl.
  apply list_lookup_insert_eq. by eapply lookup_lt_Some.
Qed.

End RecorderFacts.

Section RecorderClaims.
Import Recorder.

(** C1, as stated, fails: [stop_recording] only clears the flag.  After
    it has returned with one frame in the buffer, the stream of the
    still sleeping capture thread delivers another chunk and the buffer
    grows to two frames. *)
Lemma frame_appended_after_stop_returned :
  (λ s, length (frames (recorder s))) <$>
    run [CallStart (Return tt); Thread 0 (EnterStream (Return tt));
         Deliver 0 [1; 2] []; CallStop] fresh = Some 1%nat
  ∧ (λ s, (length (frames (recorder s)), threads s)) <$>
    run [CallStart (Return tt); Thread 0 (EnterStream (Return tt));
         Deliver 0 [1; 2] []; CallStop; Deliver 0 [3; 4] []] fresh
    = Some (2%nat, [Streaming]).
Proof. split; reflexivity. Qed.

(** C1, amended: after a successful [start_recording], along any
    interleaving without a further start the buffer is exactly the
    sequence of chunks the driver delivered since that start, in arrival
    order (none lost, none invented); [stop_recording] returns at once,
    leaving the capture threads and the buffer as they are; a streaming
    thread ends at its first loop test after the flag is cleared; and
    once every capture thread has returned, no step other than a new
    start changes the buffer. *)
Theorem buffer_is_delivered_chunks spawn s0 tr s2 :
  forallb (λ e, negb (is_start e)) tr = true →
  run tr (start_recording spawn s0).1 = Some s2 →
  frames (recorder s2) = delivered tr
  ∧ ((stop_recording s2).2 = Return tt
     ∧ threads (stop_recording s2).1 = threads s2
     ∧ frames (recorder (stop_recording s2).1) = frames (recorder s2))
  ∧ (∀ tid, recording (recorder s2) = false →
            threads s2 !! tid = Some Streaming →
            ∃ s3, step (Thread tid LoopTest) s2 = Some s3
                  ∧ threads s3 !! tid = Some Exited
                  ∧ frames (recorder s3) = frames (recorder s2))
  ∧ (∀ e s3, all_exited s2 = true → is_start e = false →
             step e s2 = Some s3 →
             frames (recorder s3) = frames (recorder s2)
             ∧ all_exited s3 = true).
Proof.
  intros Hns Hrun. repeat split.
  - rewrite (run_frames _ _ _ Hns Hrun).
    by rewrite (proj2 (start_recording_state spawn s0)).
  - intros tid Hrec Hth.
    destruct (loop_test_after_stop tid s2 Hrec Hth) as (s3 & H1 & H2 & H3).
    exists s3. by rewrite H3.
  - eapply quiescent_step; eauto.
  - eapply quiescent_step; eauto.
Qed.

Lemma buffer_is_delivered_chunks_witness :
  ∃ s2,
    run [Thread 0 (EnterStream (Return tt)); Deliver 0 [1; 2] []; CallStop;
         Deliver 0 [3; 4] ["input overflow"]; Thread 0 LoopTest]
        (start_recording (Return tt) fresh).1 = Some s2
    ∧ frames (recorder s2) = [[1; 2]; [3; 4]]
    ∧ all_exited s2 = true.
Proof.
  eexists. split; [reflexivity|]. split; [|reflexivity].
  refine (proj1 (buffer_is_delivered_chunks (Return tt) fresh
    [Thread 0 (EnterStream (Return tt)); Deliver 0 [1; 2] []; CallStop;
     Deliver 0 [3; 4] ["input overflow"]; Thread 0 LoopTest] _ _ _));
    reflexivity.
Defined.



(** C3, as stated, fails: [stop_recording] returns normally on a session
    that never recorded and on one that was already stopped. *)
Lemma stop_when_not_recording_succeeds :
  recording (recorder fresh) = false
  ∧ is_raise (stop_recording fresh).2 = false
  ∧ (λ s, (recording (recorder s), is_raise (stop_recording s).2)) <$>
      run [CallStart (Return tt); CallStop] fresh = Some (false, false).
Proof. repeat split. Qed.

(** C3, amended: [stop_recording] never fails.  From every state it
    clears the flag, logs, and returns, leaving buffer and capture
    threads untouched. *)
Theorem stop_recording_total s :
  stop_recording s
  = ({| recorder := set_recording false (recorder s);
        threads := threads s;
        log := log s ++ [(INFO, "Recording stopped")] |}, Return tt)
  ∧ frames (recorder (stop_recording s).1) = frames (recorder s).
Proof. done. Qed.




End RecorderClaims.

(** * Properties of the summarizer client *)

Section GroqFacts.
Import Groq.
Variable E : env.

Lemma summarize_text_unfold self text w :
  summarize_text E self text w
  = match summarize_outcome E self text with
    | Return v =>
        ({| files := files w; logged := logged w;
            posted := posted w ++ [build_request self text];
            rendered := rendered w |}, Return v)
    | Raise e =>
        ({| files := files w;
            logged := logged w ++
              (if is_exception e
               then [(ERROR, "Error during summarization: " +:+ exn_str e)] else []);
            posted := posted w ++ [build_request self text];
            rendered := rendered w |}, Raise e)
    end.
Proof.
  unfold summarize_text, summarize_outcome, try_except, post, build_request.
  unfold mbind, M_bind, bind, record_post, lift, logger, raise. simpl.
  destruct (requests_post E _) as [resp|e]; simpl;
    [|by destruct (is_exception e); rewrite ?app_nil_r].
  destruct (raise_for_status resp) as [[]|e]; simpl;
    [|by destruct (is_exception e); rewrite ?app_nil_r].
  destruct (response_json resp) as [v|e]; simpl;
    [|by destruct (is_exception e); rewrite ?app_nil_r].
  destruct (extract_content v) as [c|e]; simpl; [done|].
  by destruct (is_exception e); rewrite ?app_nil_r.
Qed.

Lemma subscript_error_class v k e :
  subscript v k = Raise e →
  (exn_class e = "KeyError" ∨ exn_class e = "IndexError" ∨ exn_class e = "TypeError")
  ∧ is_exception e = true ∧ exn_status e = None.
Proof.
  unfold subscript. intros H.
  destruct v, k; repeat case_match; simplify_eq; simpl; auto.
Qed.

Lemma extract_content_error_class data e :
  extract_content data = Raise e →
  (exn_class e = "KeyError" ∨ exn_class e = "IndexError" ∨ exn_class e = "TypeError")
  ∧ is_exception e = true ∧ exn_status e = None.
Proof.
  unfold extract_content, rbind. intros H.
  repeat match type of H with
  | context [match subscript ?v ?k with _ => _ end] =>
      let Hs := fresh "Hs" in
      destruct (subscript v k) eqn:Hs;
        [|simplify_eq; by eapply subscript_error_class]
  end.
  by eapply subscript_error_class.
Qed.

Lemma raise_for_status_spec resp :
  raise_for_status resp
  = if bool_decide (400 ≤ status_code resp < 600)
    then Raise (mkExn "HTTPError"
           (pretty (status_code resp) +:+
            (if bool_decide (status_code resp < 500)
             then " Client Error: " else " Server Error: ") +:+
            reason resp +:+ " for url: " +:+ resp_url resp)
           true (Some (status_code resp)))
    else Return tt.
Proof.
  unfold raise_for_status.
  repeat case_bool_decide; repeat case_match; try done; lia.
Qed.

End GroqFacts.

Section GroqClaims.
Import Groq Sample.

(** C6, as stated, fails: there is no [AuthError], [ApiError] or
    [NetworkError].  A 401 answer and a 500 answer both raise
    [HTTPError]; a body without the completion field raises [KeyError],
    a different class from the one for HTTP errors; and an answer with
    status 300 and a well-formed body is returned as a summary. *)
Lemma unauthorized_raises_http_error :
  exn_class <$> error_of
    (summarize_text (env_with heard_hello (Return unauthorized) noon)
       (new "token") "hello world" empty_world).2 = Some "HTTPError"
  ∧ exn_class <$> error_of
    (summarize_text (env_with heard_hello (Return server_error) noon)
       (new "token") "hello world" empty_world).2 = Some "HTTPError"
  ∧ exn_class <$> error_of
    (summarize_text (env_with heard_hello (Return no_choices) noon)
       (new "token") "hello world" empty_world).2 = Some "KeyError"
  ∧ (summarize_text (env_with heard_hello (Return multiple_choices) noon)
       (new "token") "hello world" empty_world).2
    = Return (JStr "Summary: hello").
Proof. repeat split; vm_compute; reflexivity. Qed.

(** C6, amended: [summarize_text] re-raises, unchanged, whatever its
    body raised, after logging it when it is an [Exception] instance.  A
    transport failure surfaces as the exception [requests.post] raised;
    every answer with a status from 400 to 599, 401 included, as
    [HTTPError] carrying the response's status code, by which the caller
    tells an authorization rejection from the other statuses; an answer
    that is not JSON as [JSONDecodeError] with the decoder's message; a
    body without the completion field as [KeyError], [IndexError] or
    [TypeError], which carry no status.  An answer with any other status
    and a well-formed body yields its completion. *)
Theorem summarize_text_reraises (E : env) self text w data :
  (summarize_text E self text w).2
  = match requests_post E (build_request self text) with
    | Raise e => Raise e
    | Return resp =>
        if bool_decide (400 ≤ status_code resp < 600)
        then Raise (mkExn "HTTPError"
               (pretty (status_code resp) +:+
                (if bool_decide (status_code resp < 500)
                 then " Client Error: " else " Server Error: ") +:+
                reason resp +:+ " for url: " +:+ resp_url resp)
               true (Some (status_code resp)))
        else match body resp with
             | None => Raise (Exn "JSONDecodeError" (decode_error resp))
             | Some v => extract_content v
             end
    end
  ∧ logged (summarize_text E self text w).1
    = logged w ++ match (summarize_text E self text w).2 with
                  | Return _ => []
                  | Raise e =>
                      if is_exception e
                      then [(ERROR, "Error during summarization: " +:+ exn_str e)]
                      else []
                  end
  ∧ match extract_content data with
    | Return _ => True
    | Raise e => exn_class e ∈ ["KeyError"; "IndexError"; "TypeError"]
                 ∧ exn_status e = None
    end.
Proof.
  rewrite summarize_text_unfold. split; [|split].
  - unfold summarize_outcome, rbind, response_json.
    destruct (requests_post E _) as [resp|e]; simpl; [|done].
    rewrite raise_for_status_spec.
    case_bool_decide; simpl; [done|].
    destruct (body resp) as [v|]; simpl; [|done].
    by destruct (extract_content v).
  - destruct (summarize_outcome E self text); simpl; by rewrite ?app_nil_r.
  - destruct (extract_content data) as [|e] eqn:Hd; [done|].
    apply extract_content_error_class in Hd as (Hc & _ & Hs).
    split; [|done]. rewrite !elem_of_cons. tauto.
Qed.

(** C7: every call of [summarize_text] issues exactly one request, a
    POST to [https://api.groq.com/openai/v1/chat/completions] with the
    headers [Authorization: Bearer <token>] and
    [Content-Type: application/json], whose JSON body has a system
    message, temperature 0.7, max_tokens 500 and a user message that is
    the fixed template, naming its four sections, followed by the text
    verbatim. *)
Theorem summarize_text_request (E : env) token text w :
  posted (summarize_text E (new token) text w).1
  = posted w ++ [build_request (new token) text]
  ∧ method (build_request (new token) text) = "POST"
  ∧ url (build_request (new token) text)
    = "https://api.groq.com/openai/v1/chat/completions"
  ∧ headers (build_request (new token) text)
    = [("Authorization", "Bearer " +:+ token);
       ("Content-Type", "application/json")]
  ∧ lookup_path (payload (build_request (new token) text))
      [KStr "messages"; KInt 0; KStr "role"] = Return (JStr "system")
  ∧ lookup_path (payload (build_request (new token) text))
      [KStr "messages"; KInt 1; KStr "role"] = Return (JStr "user")
  ∧ lookup_path (payload (build_request (new token) text))
      [KStr "messages"; KInt 1; KStr "content"] = Return (JStr (template +:+ text))
  ∧ lookup_path (payload (build_request (new token) text))
      [KStr "messages"; KInt 2] = Raise (IndexError "list")
  ∧ lookup_path (payload (build_request (new token) text))
      [KStr "temperature"] = Return (JFloat 7 (-1))
  ∧ lookup_path (payload (build_request (new token) text))
      [KStr "max_tokens"] = Return (JInt 500)
  ∧ (String.index 0 "-MAIN TOPICS AND KEY POINTS" template = Some 56
     ∧ String.index 0 "IMPORTANT CONCEPTS AND DEFINITIONS" template = Some 105
     ∧ String.index 0 "-ANY SIGNIFICANT EXAMPLES MENTIONED" template = Some 161
     ∧ String.index 0 "-KEY TAKEAWAYS" template = Some 218
     ∧ String.index 0 "HERE IS THE TEXT" template = Some 254
     ∧ String.length template = 270)%nat.
Proof.
  split.
  { rewrite summarize_text_unfold.
    by destruct (summarize_outcome E (new token) text). }
  repeat split; vm_compute; reflexivity.
Qed.

End GroqClaims.

(** * Properties of transcription, the notes log and the handler *)

Section Decimal.
Import App.
Local Open Scope nat_scope.



End Decimal.

Section AppFacts.
Import App Main.
Variable E : env.

Lemma append_assoc (a b c : string) : (a +:+ b) +:+ c = a +:+ b +:+ c.
Proof.
  induction a as [|x a IH]; [done|].
  change (String x ((a +:+ b) +:+ c) = String x (a +:+ b +:+ c)).
  by f_equal.
Qed.

Lemma append_nil_r (a : string) : a +:+ "" = a.
Proof.
  induction a as [|x a IH]; [done|].
  change (String x (a +:+ "") = String x a). by f_equal.
Qed.

Lemma encodable_app a b : encodable E (a +:+ b) = encodable E a && encodable E b.
Proof.
  induction a as [|x a IH]; [done|].
  change (encodable_char E x && encodable E (a +:+ b)
          = encodable_char E x && encodable E a && encodable E b).
  by rewrite IH, andb_assoc.
Qed.

Lemma digit_encodable n : encodable_char E (digit n) = true.
Proof.
  unfold encodable_char, digit.
  assert (n `mod` 10 < 10)%nat as Hlt by (apply Nat.mod_upper_bound; lia).
  rewrite nat_ascii_embedding by lia.
  apply orb_true_iff. left. apply Nat.ltb_lt. lia.
Qed.

(** The header is plain ASCII: every encoding takes it. *)
Lemma header_encodable t :
  encodable E (nl +:+ "--- Summary from " +:+ strftime t +:+ " ---" +:+ nl) = true.
Proof.
  unfold strftime, pad4, pad2. rewrite !encodable_app.
  cbn [encodable]. rewrite !digit_encodable. reflexivity.
Qed.


Lemma add_str_error v s e :
  add_str v s = Raise e →
  exn_class e = "TypeError" ∧ is_exception e = true ∧ ∀ t, v ≠ JStr t.
Proof. destruct v; intros H; simplify_eq/=; done. Qed.


Lemma transcribe_audio_unfold audio_file w :
  transcribe_audio E audio_file w
  = match engine_outcome E audio_file with
    | Return res => (w, Return (Some (text res)))
    | Raise e =>
        if is_exception e then
          ({| files := files w;
              logged := logged w ++ [(ERROR, "Error during transcription: " +:+ exn_str e)];
              posted := posted w; rendered := rendered w |}, Return None)
        else (w, Raise e)
    end.
Proof.
  unfold transcribe_audio, engine_outcome, try_except, rbind.
  unfold mbind, M_bind, mret, M_ret, bind, ret, lift, logger.
  destruct (import_whisper E) as [[]|e]; [|by destruct (is_exception e)].
  destruct (load_model E "base") as [[]|e]; [|by destruct (is_exception e)].
  destruct (model_transcribe E audio_file) as [res|e]; [|by destruct (is_exception e)].
  by destruct w.
Qed.

(** [save_summary], by outcome of the open, of [summary + newline] and
    of the encoding of that line. *)
Lemma save_summary_cases v filename w :
  save_summary E v filename w
  = match open_append E filename with
    | Raise e =>
        if is_exception e then
          ({| files := files w;
              logged := logged w ++ [(ERROR, "Failed to save summary: " +:+ exn_str e)];
              posted := posted w; rendered := rendered w |}, Raise e)
        else (w, Raise e)
    | Return _ =>
        match add_str v nl with
        | Return line =>
            if encodable E line then
              ({| files := <[filename := default "" (files w !! filename) +:+
                               header_of (now E) +:+ line]> (files w);
                  logged := logged w ++ [(INFO, "Summary saved to " +:+ filename)];
                  posted := posted w; rendered := rendered w |}, Return tt)
            else
              ({| files := <[filename := default "" (files w !! filename) +:+
                               header_of (now E)]> (files w);
                  logged := logged w ++
                    [(ERROR, "Failed to save summary: " +:+ encode_error E line)];
                  posted := posted w; rendered := rendered w |},
               Raise (Exn "UnicodeEncodeError" (encode_error E line)))
        | Raise e =>
            ({| files := <[filename := default "" (files w !! filename) +:+
                             header_of (now E)]> (files w);
                logged := logged w ++ [(ERROR, "Failed to save summary: " +:+ exn_str e)];
                posted := posted w; rendered := rendered w |}, Raise e)
        end
    end.
Proof.
  unfold save_summary, try_except, file_touch, file_write, header_of.
  unfold mbind, M_bind, bind, lift, logger, raise.
  destruct (open_append E filename) as [[]|e]; [|by destruct (is_exception e)].
  cbn [encodable]. rewrite header_encodable.
  destruct (add_str v nl) as [line|e] eqn:Hadd.
  - destruct (encodable E line); cbn [files logged posted rendered is_exception];
      rewrite !lookup_insert_eq, !insert_insert_eq; cbn [default from_option id];
      by rewrite append_nil_r, ?append_assoc.
  - apply add_str_error in Hadd as (_ & -> & _).
    cbn [files logged posted rendered].
    rewrite !lookup_insert_eq, !insert_insert_eq. cbn [default from_option id].
    by rewrite append_nil_r.
Qed.

(** The handler when the transcript is falsy: [None] or the empty
    string. *)
Lemma handler_falsy key last_file w w1 t :
  str_truthy key = true →
  transcribe_audio E last_file
    {| files := files w; logged := logged w; posted := posted w;
       rendered := rendered w ++ [st_spinner "Transcribing audio..."] |}
  = (w1, Return t) →
  truthy t = false →
  transcribe_and_summarize E key last_file w
  = ({| files := files w1; logged := logged w1; posted := posted w1;
        rendered := rendered w1 ++ [failed_msg] |}, Return tt).
Proof.
  intros Hkey Htr Ht. unfold transcribe_and_summarize. rewrite Hkey. simpl.
  unfold mbind, M_bind, bind, st at 1. simpl. rewrite Htr. by rewrite Ht.
Qed.

(** The handler when [transcribe_audio] returns a falsy transcript,
    read off the world it was entered with. *)
Lemma handler_short_circuit key last_file w t :
  str_truthy key = true →
  (transcribe_audio E last_file w).2 = Return t →
  truthy t = false →
  posted (transcribe_and_summarize E key last_file w).1 = posted w
  ∧ files (transcribe_and_summarize E key last_file w).1 = files w
  ∧ rendered (transcribe_and_summarize E key last_file w).1
    = rendered w ++ [st_spinner "Transcribing audio..."; failed_msg]
  ∧ (transcribe_and_summarize E key last_file w).2 = Return tt
  ∧ (t ≠ None →
     logged (transcribe_and_summarize E key last_file w).1 = logged w).
Proof.
  intros Hkey Hres Ht.
  pose proof (transcribe_audio_unfold last_file
    {| files := files w; logged := logged w; posted := posted w;
       rendered := rendered w ++ [st_spinner "Transcribing audio..."] |}) as Hu.
  rewrite transcribe_audio_unfold in Hres.
  destruct (engine_outcome E last_file) as [res|e];
    [|destruct (is_exception e); [|done]];
    simpl in Hres; injection Hres as <-;
    rewrite (handler_falsy key last_file w _ _ Hkey Hu Ht); simpl;
    by rewrite <- (assoc_L (++)).
Qed.

(** The handler when the engine raises what [except Exception] does not
    catch. *)
Lemma handler_transcribe_escapes key last_file w e :
  str_truthy key = true →
  engine_outcome E last_file = Raise e →
  is_exception e = false →
  transcribe_and_summarize E key last_file w
  = ({| files := files w; logged := logged w; posted := posted w;
        rendered := rendered w ++ [st_spinner "Transcribing audio..."] |}, Raise e).
Proof.
  intros Hkey Heng He. unfold transcribe_and_summarize. rewrite Hkey. simpl.
  unfold mbind, M_bind, bind, st at 1. simpl.
  by rewrite transcribe_audio_unfold, Heng, He.
Qed.

(** The handler when the transcript is a non-empty string and the
    summarizer raises. *)
Lemma handler_summarizer_raises key last_file w res e :
  str_truthy key = true →
  engine_outcome E last_file = Return res →
  str_truthy (text res) = true →
  Groq.summarize_outcome E (Groq.new key) (text res) = Raise e →
  transcribe_and_summarize E key last_file w
  = ({| files := files w;
        logged := logged w ++
          (if is_exception e
           then [(ERROR, "Error during summarization: " +:+ exn_str e)] else []);
        posted := posted w ++ [Groq.build_request (Groq.new key) (text res)];
        rendered := rendered w ++
          [st_spinner "Transcribing audio..."; st_markdown "### Transcription";
           st_write (JStr (text res)); st_spinner "Generating summary..."] ++
          (if is_exception e
           then [st_error ("Failed to generate summary: " +:+ exn_str e)] else []) |},
     if is_exception e then Return tt else Raise e).
Proof.
  intros Hkey Heng Ht Hsum. unfold transcribe_and_summarize. rewrite Hkey. simpl.
  unfold mbind, M_bind, bind, st at 1. simpl.
  rewrite transcribe_audio_unfold, Heng. simpl. rewrite Ht.
  unfold try_except, st. simpl.
  rewrite summarize_text_unfold, Hsum. simpl.
  destruct (is_exception e); simpl; by rewrite <- !(assoc_L (++)), ?app_nil_r.
Qed.

(** The handler once the summarizer has returned [v]. *)
Lemma handler_summary_returned key last_file w res v :
  str_truthy key = true →
  engine_outcome E last_file = Return res →
  str_truthy (text res) = true →
  Groq.summarize_outcome E (Groq.new key) (text res) = Return v →
  transcribe_and_summarize E key last_file w
  = match save_summary E v default_notes
            {| files := files w; logged := logged w;
               posted := posted w ++ [Groq.build_request (Groq.new key) (text res)];
               rendered := rendered w ++
                 [st_spinner "Transcribing audio..."; st_markdown "### Transcription";
                  st_write (JStr (text res)); st_spinner "Generating summary...";
                  st_markdown "### Summary"; st_write v] |} with
    | (w2, Return _) =>
        ({| files := files w2; logged := logged w2; posted := posted w2;
            rendered := rendered w2 ++ [st_success "Summary saved to class_notes.txt"] |},
         Return tt)
    | (w2, Raise e) =>
        if is_exception e then
          ({| files := files w2; logged := logged w2; posted := posted w2;
              rendered := rendered w2 ++
                [st_error ("Failed to generate summary: " +:+ exn_str e)] |},
           Return tt)
        else (w2, Raise e)
    end.
Proof.
  intros Hkey Heng Ht Hsum. unfold transcribe_and_summarize. rewrite Hkey. simpl.
  unfold mbind, M_bind, bind, st at 1. simpl.
  rewrite transcribe_audio_unfold, Heng. simpl. rewrite Ht.
  unfold try_except, st. simpl.
  rewrite summarize_text_unfold, Hsum. simpl.
  rewrite <- !(assoc_L (++)). simpl.
  destruct (save_summary E v default_notes _) as [w2 [[]|e]]; [done|].
  by destruct (is_exception e).
Qed.

End AppFacts.

Section AppClaims.
Import App Main Sample.

(** C8, as stated, fails: [transcribe_audio] catches [Exception] only.
    When the engine's call is interrupted, the [KeyboardInterrupt]
    reaches the caller and nothing is logged. *)
Lemma interrupt_escapes_transcribe_audio :
  is_exception Fixture.keyboard_interrupt = false
  ∧ transcribe_audio
      (env_with (Raise Fixture.keyboard_interrupt) (Return ok_hello) noon)
      "recordings/recording_20261103_120000.wav" empty_world
    = (empty_world, Raise Fixture.keyboard_interrupt).
Proof. split; reflexivity. Qed.

(** C8, amended: [transcribe_audio] raises no [Exception] instance to
    its caller.  When the import, the model load or the engine's own call
    raises one, it returns [None] and logs the cause as an error;
    otherwise it returns the engine's text.  Only an exception that is
    not an [Exception] instance, such as an interrupt, passes through
    it, unlogged. *)
Theorem transcribe_audio_catches_exceptions (E : env) audio_file w :
  transcribe_audio E audio_file w
  = match engine_outcome E audio_file with
    | Return res => (w, Return (Some (text res)))
    | Raise e =>
        if is_exception e then
          ({| files := files w;
              logged := logged w ++
                [(ERROR, "Error during transcription: " +:+ exn_str e)];
              posted := posted w; rendered := rendered w |}, Return None)
        else (w, Raise e)
    end
  ∧ engine_outcome E audio_file
    = match import_whisper E with
      | Raise e => Raise e
      | Return _ =>
          match load_model E "base" with
          | Raise e => Raise e
          | Return _ => model_transcribe E audio_file
          end
      end
  ∧ match (transcribe_audio E audio_file w).2 with
    | Return _ => True
    | Raise e => is_exception e = false ∧ engine_outcome E audio_file = Raise e
    end.
Proof.
  rewrite transcribe_audio_unfold. split; [done|]. split.
  - unfold engine_outcome, rbind.
    by destruct (import_whisper E), (load_model E "base").
  - destruct (engine_outcome E audio_file) as [res|e]; [done|].
    by destruct (is_exception e) eqn:He.
Qed.




(** C5, as stated, fails in its second half: a reply whose completion is
    not text, which the summarizer should have refused, is returned by
    [summarize_text] as the summary, and the handler then leaves a header
    with no summary in the notes file before it shows the failure. *)
Lemma null_completion_leaves_partial_entry :
  (Groq.summarize_text
     (env_with heard_hello (Return Fixture.null_content) noon)
     (Groq.new "token") "hello world" empty_world).2 = Return JNull
  ∧ files (transcribe_and_summarize
             (env_with heard_hello (Return Fixture.null_content) noon)
             "token" "recordings/recording_20261103_120000.wav" empty_world).1
      !! default_notes
    = Some (nl +:+ "--- Summary from 2026-11-03 12:00:00 ---" +:+ nl)
  ∧ last (rendered (transcribe_and_summarize
             (env_with heard_hello (Return Fixture.null_content) noon)
             "token" "recordings/recording_20261103_120000.wav" empty_world).1)
    = Some (st_error
        "Failed to generate summary: unsupported operand type(s) for +: 'NoneType' and 'str'").
Proof. repeat split; reflexivity. Qed.

(** C5, amended: in the handler, with the key set, a transcription that
    comes back absent means no request is posted (the summarizer is not
    called), no file is written, and the user is shown the error
    "Transcription failed. Please try recording again."; and whenever
    [summarize_text] raises on a usable transcript, after its one
    request, no file is written: an [Exception] instance reaches the
    handler, which shows it as an error, and any other exception leaves
    the handler as it came. *)
Theorem pipeline_short_circuits (E : env) key last_file w :
  str_truthy key = true →
  ((transcribe_audio E last_file w).2 = Return None →
     posted (transcribe_and_summarize E key last_file w).1 = posted w
     ∧ files (transcribe_and_summarize E key last_file w).1 = files w
     ∧ rendered (transcribe_and_summarize E key last_file w).1
       = rendered w ++
         [st_spinner "Transcribing audio...";
          st_error "Transcription failed. Please try recording again."]
     ∧ (transcribe_and_summarize E key last_file w).2 = Return tt)
  ∧ (∀ t e,
       (transcribe_audio E last_file w).2 = Return (Some t) →
       str_truthy t = true →
       (Groq.summarize_text E (Groq.new key) t w).2 = Raise e →
       files (transcribe_and_summarize E key last_file w).1 = files w
       ∧ posted (transcribe_and_summarize E key last_file w).1
         = posted w ++ [Groq.build_request (Groq.new key) t]
       ∧ rendered (transcribe_and_summarize E key last_file w).1
         = rendered w ++
           [st_spinner "Transcribing audio..."; st_markdown "### Transcription";
            st_write (JStr t); st_spinner "Generating summary..."] ++
           (if is_exception e
            then [st_error ("Failed to generate summary: " +:+ exn_str e)] else [])
       ∧ (transcribe_and_summarize E key last_file w).2
         = if is_exception e then Return tt else Raise e).
Proof.
  intros Hkey. split.
  - intros Hnone.
    destruct (handler_short_circuit E key last_file w None Hkey Hnone eq_refl)
      as (? & ? & ? & ? & _).
    done.
  - intros t e Ht Htruthy Hsum.
    rewrite transcribe_audio_unfold in Ht.
    destruct (engine_outcome E last_file) as [res|e'] eqn:Heng;
      [|by destruct (is_exception e')].
    simpl in Ht. simplify_eq.
    rewrite summarize_text_unfold in Hsum.
    destruct (Groq.summarize_outcome E (Groq.new key) (text res)) as [v|e'] eqn:Hout;
      simpl in Hsum; [done|]. simplify_eq.
    by rewrite (handler_summarizer_raises E key last_file w res e Hkey Heng Htruthy Hout).
Qed.

Lemma pipeline_short_circuits_witness :
  rendered (transcribe_and_summarize
       (env_with (Raise (Exn "RuntimeError" "Failed to load audio"))
          (Return ok_hello) noon)
       "token" "recordings/recording_20261103_120000.wav" empty_world).1
  = [st_spinner "Transcribing audio...";
     st_error "Transcription failed. Please try recording again."]
  ∧ files (transcribe_and_summarize
       (env_with heard_hello (Return unauthorized) noon)
       "token" "recordings/recording_20261103_120000.wav" empty_world).1 = ∅
  ∧ last (rendered (transcribe_and_summarize
       (env_with heard_hello (Return unauthorized) noon)
       "token" "recordings/recording_20261103_120000.wav" empty_world).1)
    = Some (st_error
        ("Failed to generate summary: 401 Client Error: Unauthorized for url: "
         +:+ endpoint)).
Proof.
  pose proof (proj1 (pipeline_short_circuits
    (env_with (Raise (Exn "RuntimeError" "Failed to load audio"))
       (Return ok_hello) noon)
    "token" "recordings/recording_20261103_120000.wav" empty_world eq_refl)
    eq_refl) as (_ & _ & Habsent & _).
  pose proof (proj2 (pipeline_short_circuits
    (env_with heard_hello (Return unauthorized) noon)
    "token" "recordings/recording_20261103_120000.wav" empty_world eq_refl)
    "hello world"
    (mkExn "HTTPError"
       ("401 Client Error: Unauthorized for url: " +:+ endpoint) true (Some 401))
    eq_refl eq_refl eq_refl) as (Hfiles & _ & Hshown & _).
  split; [exact Habsent|]. split; [exact Hfiles|].
  rewrite Hshown. reflexivity.
Defined.

(** C10: a transcription that succeeds with the empty string takes the
    same branch as an absent one: nothing is posted, nothing is written,
    and the same failure message is shown, so that what the handler
    posts, writes and renders is what it does when the transcription is
    absent. *)
Theorem empty_transcript_treated_as_absent (E E' : env) key last_file w :
  str_truthy key = true →
  (transcribe_audio E last_file w).2 = Return (Some "") →
  (transcribe_audio E' last_file w).2 = Return None →
  transcribe_and_summarize E key last_file w
  = ({| files := files w; logged := logged w; posted := posted w;
        rendered := rendered w ++ [st_spinner "Transcribing audio..."; failed_msg] |},
     Return tt)
  ∧ posted (transcribe_and_summarize E key last_file w).1
    = posted (transcribe_and_summarize E' key last_file w).1
  ∧ files (transcribe_and_summarize E key last_file w).1
    = files (transcribe_and_summarize E' key last_file w).1
  ∧ rendered (transcribe_and_summarize E key last_file w).1
    = rendered (transcribe_and_summarize E' key last_file w).1.
Proof.
  intros Hkey Hempty Hnone.
  destruct (handler_short_circuit E' key last_file w None Hkey Hnone eq_refl)
    as (Hp' & Hf' & Hr' & _ & _).
  destruct (handler_short_circuit E key last_file w (Some "") Hkey Hempty eq_refl)
    as (Hp & Hf & Hr & Hret & Hl).
  specialize (Hl ltac:(done)).
  rewrite Hp, Hf, Hr, Hp', Hf', Hr'. split; [|done].
  destruct (transcribe_and_summarize E key last_file w) as [[f l p r'] r].
  simpl in *. by subst.
Qed.

Lemma empty_transcript_treated_as_absent_witness :
  str_truthy "token" = true
  ∧ (transcribe_audio
       (env_with (Return (mkWhisperResult "" "en")) (Return ok_hello) noon)
       "recordings/silence.wav" empty_world).2 = Return (Some "")
  ∧ transcribe_and_summarize
      (env_with (Return (mkWhisperResult "" "en")) (Return ok_hello) noon)
      "token" "recordings/silence.wav" empty_world
    = ({| files := ∅; logged := []; posted := [];
          rendered := [st_spinner "Transcribing audio..."; failed_msg] |},
       Return tt).
Proof.
  split; [reflexivity|]. split; [reflexivity|].
  exact (proj1 (empty_transcript_treated_as_absent
    (env_with (Return (mkWhisperResult "" "en")) (Return ok_hello) noon)
    (env_with (Raise (Exn "RuntimeError" "Failed to load audio"))
       (Return ok_hello) noon)
    "token" "recordings/silence.wav" empty_world eq_refl eq_refl eq_refl)).
Defined.

End AppClaims.


(** * Further properties of the capture threads *)

Section ThreadFacts.
Import Recorder Studio.

Lemma step_threads_length e s s' :
  step e s = Some s' →
  length (threads s') = (length (threads s) + spawned [e])%nat.
Proof.
  destruct e as [[[]|x]| |tid st|tid indata status]; simpl; intros H; simplify_eq/=.
  - rewrite length_app. simpl. lia.
  - lia.
  - lia.
  - unfold _record in H.
    destruct (threads s !! tid) as [[]|], st as [[]| |];
      simplify_eq/=; rewrite ?length_insert; try lia.
    destruct (recording (recorder s)); simplify_eq/=; rewrite ?length_insert; lia.
  - destruct (threads s !! tid) as [[]|]; simplify_eq.
    rewrite audio_callback_threads. lia.
Qed.

Lemma spawned_app tr1 tr2 : spawned (tr1 ++ tr2) = (spawned tr1 + spawned tr2)%nat.
Proof.
  induction tr1 as [|e tr1 IH]; [done|].
  destruct e as [[[]|x]| | |]; simpl; by rewrite ?IH.
Qed.

(** X2: the threads of a session only accumulate: after any run there
    is one more thread for each call of [start_recording] whose thread
    creation succeeded, and no call of [stop_recording] removes one. *)
Theorem one_thread_per_start tr : ∀ s s',
  run tr s = Some s' →
  length (threads s') = (length (threads s) + spawned tr)%nat.
Proof.
  induction tr as [|e tr IH]; intros s s' Hrun; simpl in Hrun.
  - simplify_eq. simpl. lia.
  - destruct (step e s) as [s1|] eqn:Hstep; [|done].
    rewrite (IH _ _ Hrun), (step_threads_length _ _ _ Hstep).
    change (e :: tr) with ([e] ++ tr). rewrite spawned_app. lia.
Qed.

Lemma one_thread_per_start_witness :
  ∃ s',
    run [CallStart (Return tt); CallStop; CallStart (Return tt);
         CallStart (Raise (Exn "RuntimeError" "can't start new thread"))] fresh
    = Some s'
    ∧ length (threads s') = 2%nat.
Proof.
  eexists. split; [reflexivity|].
  exact (one_thread_per_start
    [CallStart (Return tt); CallStop; CallStart (Return tt);
     CallStart (Raise (Exn "RuntimeError" "can't start new thread"))]
    fresh _ eq_refl).
Defined.

(** X3: a stop followed by a start before the old capture thread has
    tested the flag leaves that thread running: its next loop test keeps
    it streaming beside the newly created thread, and the next chunk of
    its stream is the first frame of the new buffer. *)
Theorem restart_keeps_old_thread s tid indata status :
  threads s !! tid = Some Streaming →
  ∃ s1 s2,
    run [CallStop; CallStart (Return tt); Thread tid LoopTest] s = Some s1
    ∧ threads s1 = threads s ++ [Spawned]
    ∧ threads s1 !! tid = Some Streaming
    ∧ run [Deliver tid indata status] s1 = Some s2
    ∧ frames (recorder s2) = [indata].
Proof.
  intros Hth.
  set (s1 := (start_recording (Return tt) (stop_recording s).1).1).
  assert (threads s1 = threads s ++ [Spawned]) as Hthr by done.
  assert (recording (recorder s1) = true) as Hrec by done.
  assert (frames (recorder s1) = []) as Hfr by done.
  assert (run [CallStop; CallStart (Return tt)] s = Some s1) as Hrun by done.
  clearbody s1.
  assert (threads s1 !! tid = Some Streaming) as Hth'.
  { rewrite Hthr. by apply lookup_app_l_Some. }
  exists s1, (_audio_callback indata (Z.of_nat (length indata)) 0 status s1).
  split.
  { change (run ([CallStop; CallStart (Return tt)] ++ [Thread tid LoopTest]) s = Some s1).
    cbn [run app step] in *. simplify_eq. cbn [run app step].
    unfold _record. by rewrite Hth', Hrec. }
  split; [done|]. split; [done|]. split.
  { cbn [run step]. by rewrite Hth'. }
  by rewrite audio_callback_frames, Hfr.
Qed.

Lemma restart_keeps_old_thread_witness :
  ∃ s1 s2,
    run [CallStop; CallStart (Return tt); Thread 0 LoopTest]
        {| recorder := set_recording true init; threads := [Streaming]; log := [] |}
    = Some s1
    ∧ threads s1 = [Streaming; Spawned]
    ∧ threads s1 !! 0%nat = Some Streaming
    ∧ run [Deliver 0 [7; 8] []] s1 = Some s2
    ∧ frames (recorder s2) = [[7; 8]].
Proof.
  exact (restart_keeps_old_thread
    {| recorder := set_recording true init; threads := [Streaming]; log := [] |}
    0%nat [7; 8] [] eq_refl).
Defined.

End ThreadFacts.

(** * Properties of saving and of the button handlers *)

Section SavingFacts.
Import Recorder Studio Main.

Lemma recording_path_join t :
  path_join "recordings" ("recording_" +:+ strftime_compact t +:+ ".wav")
  = recording_path t.
Proof. reflexivity. Qed.

(** What [save_recording] leaves, by outcome. *)
Lemma save_recording_cases D filename st :
  let self := recorder (sess st) in
  let out := save_recording D filename st in
  recorder (sess out.1) = self
  ∧ threads (sess out.1) = threads (sess st)
  ∧ match out.2 with
    | Return p =>
        p = path_join "recordings" filename
        ∧ audio out.1 = <[p := (frames self, SAMPLE_RATE self)]> (audio st)
        ∧ makedirs D "recordings" = Return tt
        ∧ sf_write D p (frames self) (SAMPLE_RATE self) = Return tt
    | Raise e =>
        audio out.1 = audio st
        ∧ (makedirs D "recordings" = Raise e
           ∨ sf_write D (path_join "recordings" filename) (frames self) (SAMPLE_RATE self)
             = Raise e)
        ∧ ∃ l, log (sess out.1)
               = l ++ [(ERROR, "Failed to save recording: " +:+ exn_str e)]
    end.
Proof.
  unfold save_recording. simpl.
  destruct (makedirs D "recordings") as [[]|e]; simpl; [|by eauto 10].
  destruct (sf_write D _ _ _) as [[]|e] eqn:Hw; simpl; by eauto 10.
Qed.

(** X4: the file of a successful [save_recording] holds the buffer as it
    was at the call, at the recorder's sample rate; chunks the capture
    threads deliver afterwards reach the buffer but not the file. *)
Theorem saved_file_is_snapshot D filename st st' p tr s2 :
  save_recording D filename st = (st', Return p) →
  forallb (λ e, negb (is_start e)) tr = true →
  run tr (sess st') = Some s2 →
  p = path_join "recordings" filename
  ∧ audio st' !! p
    = Some (frames (recorder (sess st)), SAMPLE_RATE (recorder (sess st)))
  ∧ frames (recorder s2) = frames (recorder (sess st)) ++ delivered tr.
Proof.
  intros Hsave Hns Hrun.
  destruct (save_recording_cases D filename st) as (Hrec & _ & Hout).
  rewrite Hsave in Hrec, Hout. simpl in Hrec, Hout.
  destruct Hout as (-> & Haudio & _).
  split; [done|]. split.
  - rewrite Haudio. apply lookup_insert_eq.
  - by rewrite (run_frames _ _ _ Hns Hrun), Hrec.
Qed.

Lemma saved_file_is_snapshot_witness :
  audio (save_recording Fixture.good_device "recording_20261103_090507.wav"
           Fixture.stopped_booth).1 !! "recordings/recording_20261103_090507.wav"
  = Some ([], 44100)
  ∧ frames (recorder (default fresh
      (run [Deliver 0 [1; 2] []; Thread 0 LoopTest]
         (sess (save_recording Fixture.good_device "recording_20261103_090507.wav"
                  Fixture.stopped_booth).1))))
    = [] ++ [[1; 2]].
Proof.
  exact (proj2 (saved_file_is_snapshot Fixture.good_device
    "recording_20261103_090507.wav" Fixture.stopped_booth
    (save_recording Fixture.good_device "recording_20261103_090507.wav"
       Fixture.stopped_booth).1
    "recordings/recording_20261103_090507.wav"
    [Deliver 0 [1; 2] []; Thread 0 LoopTest]
    (default fresh
      (run [Deliver 0 [1; 2] []; Thread 0 LoopTest]
         (sess (save_recording Fixture.good_device "recording_20261103_090507.wav"
                  Fixture.stopped_booth).1)))
    eq_refl eq_refl eq_refl)).
Defined.

(** The stop handler, by outcome of the save. *)
Lemma on_stop_cases D t a :
  let self := recorder (sess (booth a)) in
  let a' := on_stop D t a in
  recorder (sess (booth a')) = set_recording false self
  ∧ threads (sess (booth a')) = threads (sess (booth a))
  ∧ files (page a') = files (page a)
  ∧ posted (page a') = posted (page a)
  ∧ logged (page a') = logged (page a)
  ∧ ((recorded_files a' = recorded_files a ++ [recording_path t]
      ∧ audio (booth a')
        = <[recording_path t := (frames self, SAMPLE_RATE self)]> (audio (booth a))
      ∧ recording_status a' = false
      ∧ rendered (page a')
        = rendered (page a) ++ [st_success "Recording saved successfully!"]
      ∧ makedirs D "recordings" = Return tt
      ∧ sf_write D (recording_path t) (frames self) (SAMPLE_RATE self) = Return tt)
     ∨ (∃ e,
         recorded_files a' = recorded_files a
         ∧ audio (booth a') = audio (booth a)
         ∧ recording_status a' = recording_status a
         ∧ rendered (page a')
           = rendered (page a) ++ [st_error ("Failed to stop recording: " +:+ exn_str e)]
         ∧ (makedirs D "recordings" = Raise e
            ∨ sf_write D (recording_path t) (frames self) (SAMPLE_RATE self) = Raise e))).
Proof.
  unfold on_stop. simpl.
  pose proof (save_recording_cases D ("recording_" +:+ strftime_compact t +:+ ".wav")
    {| sess := (stop_recording (sess (booth a))).1; dirs := dirs (booth a);
       audio := audio (booth a) |}) as Hc.
  rewrite recording_path_join in Hc. simpl in Hc.
  destruct (save_recording D _ _) as [b' [p|e]]; simpl in *.
  - destruct Hc as (Hr & Ht & -> & Ha & Hm & Hw).
    rewrite Hr, Ht. repeat split; try done. left. by repeat split.
  - destruct Hc as (Hr & Ht & Ha & He & _).
    rewrite Hr, Ht. repeat split; try done. right. exists e. by repeat split.
Qed.

End SavingFacts.

Section Timestamps.
Import App Main.
Local Open Scope nat_scope.

Lemma div_mod_10 (a : nat) : a = 10 * (a `div` 10) + a `mod` 10 ∧ a `mod` 10 < 10.
Proof. split; [apply Nat.div_mod_eq|apply Nat.mod_upper_bound; lia]. Qed.

Lemma digit_inj a b : digit a = digit b → a `mod` 10 = b `mod` 10.
Proof.
  unfold digit. intros H. apply (f_equal nat_of_ascii) in H.
  destruct (div_mod_10 a) as [_ Ha], (div_mod_10 b) as [_ Hb].
  rewrite !nat_ascii_embedding in H by lia. lia.
Qed.

Lemma two_digits_inj a b :
  a < 100 → b < 100 →
  digit (a `div` 10) = digit (b `div` 10) → digit a = digit b → a = b.
Proof.
  intros Ha Hb H1%digit_inj H0%digit_inj.
  destruct (div_mod_10 a), (div_mod_10 b),
    (div_mod_10 (a `div` 10)), (div_mod_10 (b `div` 10)). lia.
Qed.

Lemma four_digits_inj a b :
  a < 10 * 1000 → b < 10 * 1000 →
  digit (a `div` 1000) = digit (b `div` 1000) →
  digit (a `div` 100) = digit (b `div` 100) →
  digit (a `div` 10) = digit (b `div` 10) → digit a = digit b → a = b.
Proof.
  intros Ha Hb H3%digit_inj H2%digit_inj H1%digit_inj H0%digit_inj.
  assert (∀ x, x `div` 100 = (x `div` 10) `div` 10) as E1
    by (intros; by rewrite Nat.Div0.div_div).
  assert (∀ x, x `div` 1000 = ((x `div` 10) `div` 10) `div` 10) as E2
    by (intros; by rewrite !Nat.Div0.div_div).
  rewrite !E2 in H3. rewrite !E1 in H2.
  destruct (div_mod_10 a), (div_mod_10 b),
    (div_mod_10 (a `div` 10)), (div_mod_10 (b `div` 10)),
    (div_mod_10 ((a `div` 10) `div` 10)), (div_mod_10 ((b `div` 10) `div` 10)),
    (div_mod_10 (((a `div` 10) `div` 10) `div` 10)),
    (div_mod_10 (((b `div` 10) `div` 10) `div` 10)).
  lia.
Qed.

Lemma valid_datetime_bounds t :
  valid_datetime t = true →
  year t < 10 * 1000 ∧ month t < 100 ∧ day t < 100
  ∧ hour t < 100 ∧ minute t < 100 ∧ second t < 100.
Proof.
  unfold valid_datetime. rewrite !andb_true_iff.
  rewrite !Nat.leb_le, !Nat.ltb_lt. lia.
Qed.

(** The stop handler's file name determines the second it was made in. *)
Lemma recording_path_inj t1 t2 :
  valid_datetime t1 = true → valid_datetime t2 = true →
  recording_path t1 = recording_path t2 → t1 = t2.
Proof.
  intros (Hy1 & Hm1 & Hd1 & Hh1 & Hn1 & Hs1)%valid_datetime_bounds
         (Hy2 & Hm2 & Hd2 & Hh2 & Hn2 & Hs2)%valid_datetime_bounds Heq.
  destruct t1 as [y1 m1 d1 h1 n1 s1], t2 as [y2 m2 d2 h2 n2 s2]; simpl in *.
  cbv [recording_path strftime_compact pad4 pad2 String.append
       year month day hour minute second] in Heq.
  simplify_eq.
  f_equal; (by apply four_digits_inj) || (by apply two_digits_inj).
Qed.

End Timestamps.

Section Handlers.
Import Recorder Studio Main App.

Lemma on_start_cases spawn a :
  let a' := on_start spawn a in
  sess (booth a') = (start_recording spawn (sess (booth a))).1
  ∧ audio (booth a') = audio (booth a)
  ∧ recorded_files a' = recorded_files a
  ∧ files (page a') = files (page a)
  ∧ posted (page a') = posted (page a)
  ∧ logged (page a') = logged (page a)
  ∧ recording_status a' = (if is_raise spawn then recording_status a else true).
Proof. by destruct spawn as [[]|e]. Qed.

Lemma background_cases e a a' :
  background e a = Some a' →
  step e (sess (booth a)) = Some (sess (booth a'))
  ∧ audio (booth a') = audio (booth a)
  ∧ recorded_files a' = recorded_files a
  ∧ recording_status a' = recording_status a
  ∧ page a' = page a.
Proof.
  unfold background. destruct (step e (sess (booth a))); intros; by simplify_eq.
Qed.

Lemma on_summarize_cases E key a :
  booth (on_summarize E key a) = booth a
  ∧ recording_status (on_summarize E key a) = recording_status a
  ∧ recorded_files (on_summarize E key a) = recorded_files a.
Proof. unfold on_summarize. by destruct (last_file a). Qed.

Lemma background_recording e a a' :
  is_start e = false → (e = CallStop → False) →
  background e a = Some a' →
  recording (recorder (sess (booth a'))) = recording (recorder (sess (booth a))).
Proof.
  intros Hs Hp (Hstep & _)%background_cases.
  destruct e as [| |tid st|tid indata status]; try done; simpl in Hstep.
  - by rewrite (record_keeps_recorder _ _ _ _ Hstep).
  - destruct (threads (sess (booth a)) !! tid) as [[]|]; try done.
    injection Hstep as <-. apply audio_callback_recording.
Qed.

(** The stop handler on a device that does not raise. *)
Lemma on_stop_reliable D t a :
  reliable D →
  recording (recorder (sess (booth (on_stop D t a)))) = false
  ∧ recording_status (on_stop D t a) = false
  ∧ recorded_files (on_stop D t a) = recorded_files a ++ [recording_path t]
  ∧ audio (booth (on_stop D t a))
    = <[recording_path t := (frames (recorder (sess (booth a))),
                             SAMPLE_RATE (recorder (sess (booth a))))]>
        (audio (booth a))
  ∧ rendered (page (on_stop D t a))
    = rendered (page a) ++ [st_success "Recording saved successfully!"].
Proof.
  intros [Hm Hw].
  destruct (on_stop_cases D t a) as (Hr & _ & _ & _ & _ & Hcase).
  rewrite Hr. split; [done|].
  destruct Hcase as [(Hf & Ha & Hs & Hp & _)|(e & _ & _ & _ & _ & [He|He])].
  - done.
  - by rewrite Hm in He.
  - by rewrite Hw in He.
Qed.

(** X5: when no library call raises, the stop handler leaves the
    recorder stopped and the status flag cleared, stores the buffer under
    [recordings/recording_YYYYMMDD_HHMMSS.wav], makes that path the latest
    recording and reports success. *)
Theorem stop_click_saves D t a :
  reliable D →
  recording (recorder (sess (booth (on_stop D t a)))) = false
  ∧ recording_status (on_stop D t a) = false
  ∧ recorded_files (on_stop D t a) = recorded_files a ++ [recording_path t]
  ∧ last_file (on_stop D t a) = Some (recording_path t)
  ∧ audio (booth (on_stop D t a)) !! recording_path t
    = Some (frames (recorder (sess (booth a))), SAMPLE_RATE (recorder (sess (booth a))))
  ∧ rendered (page (on_stop D t a))
    = rendered (page a) ++ [st_success "Recording saved successfully!"].
Proof.
  intros Hrel.
  destruct (on_stop_reliable D t a Hrel) as (Hr & Hs & Hf & Ha & Hp).
  unfold last_file. rewrite Hf, Ha, last_snoc, lookup_insert_eq. done.
Qed.

Lemma stop_click_saves_witness :
  reliable Fixture.good_device
  ∧ recorded_files (on_stop Fixture.good_device Fixture.morning initial)
    = [] ++ ["recordings/recording_20261103_090507.wav"].
Proof.
  assert (reliable Fixture.good_device) as Hrel by (split; reflexivity).
  split; [exact Hrel|].
  exact (proj1 (proj2 (proj2
    (stop_click_saves Fixture.good_device Fixture.morning initial Hrel)))).
Defined.



End Handlers.

Section Sessions.
Import Recorder Studio Main App.

Lemma act_keeps_files x a a' :
  is_stop_click x = false → act x a = Some a' →
  audio (booth a') = audio (booth a) ∧ recorded_files a' = recorded_files a.
Proof.
  destruct x as [spawn|D t|E key|tid st|tid indata status]; simpl;
    intros Hns H; try done.
  - simplify_eq. by destruct (on_start_cases spawn a) as (_ & ? & ? & _).
  - simplify_eq. destruct (on_summarize_cases E key a) as (Hb & _ & Hf).
    by rewrite Hb, Hf.
  - by apply background_cases in H as (_ & ? & ? & _).
  - by apply background_cases in H as (_ & ? & ? & _).
Qed.

Lemma play_keeps_files xs : ∀ a a',
  forallb (λ x, negb (is_stop_click x)) xs = true → play xs a = Some a' →
  audio (booth a') = audio (booth a) ∧ recorded_files a' = recorded_files a.
Proof.
  induction xs as [|x xs IH]; intros a a' Hns Hplay; simpl in *.
  - by simplify_eq.
  - apply andb_true_iff in Hns as [Hx Hxs]. apply negb_true_iff in Hx.
    destruct (act x a) as [a1|] eqn:Hact; [|done].
    destruct (IH _ _ Hxs Hplay) as [-> ->].
    by apply (act_keeps_files x).
Qed.

(** X8: two recordings stopped at different valid times get different
    paths, and whatever happens between the two stops short of another
    stop, both files are there afterwards, each holding the buffer of its
    own stop, and both paths are listed in order. *)
Theorem different_seconds_keep_both D1 D2 t1 t2 xs a a1 :
  reliable D1 → reliable D2 →
  valid_datetime t1 = true → valid_datetime t2 = true → t1 ≠ t2 →
  forallb (λ x, negb (is_stop_click x)) xs = true →
  play xs (on_stop D1 t1 a) = Some a1 →
  recording_path t1 ≠ recording_path t2
  ∧ audio (booth (on_stop D2 t2 a1)) !! recording_path t1
    = Some (frames (recorder (sess (booth a))), SAMPLE_RATE (recorder (sess (booth a))))
  ∧ audio (booth (on_stop D2 t2 a1)) !! recording_path t2
    = Some (frames (recorder (sess (booth a1))), SAMPLE_RATE (recorder (sess (booth a1))))
  ∧ recorded_files (on_stop D2 t2 a1)
    = recorded_files a ++ [recording_path t1; recording_path t2].
Proof.
  intros H1 H2 Hv1 Hv2 Hne Hns Hplay.
  assert (recording_path t1 ≠ recording_path t2) as Hp
    by (intros Heq; by apply Hne, recording_path_inj).
  destruct (on_stop_reliable D1 t1 a H1) as (_ & _ & Hf1 & Ha1 & _).
  destruct (on_stop_reliable D2 t2 a1 H2) as (_ & _ & Hf2 & Ha2 & _).
  destruct (play_keeps_files xs _ _ Hns Hplay) as [Ha Hf].
  rewrite Hf2, Ha2, Hf, Ha, Hf1, Ha1.
  split; [done|]. rewrite lookup_insert_ne by done.
  rewrite !lookup_insert_eq. by rewrite <- (assoc_L (++)).
Qed.

Lemma different_seconds_keep_both_witness :
  recorded_files
    (on_stop Fixture.good_device Sample.later
       (default initial
          (play [StartClicked (Return tt); Capture 0 (EnterStream (Return tt));
                 Audio 0 [1; 2] []]
             (on_stop Fixture.good_device Sample.noon initial))))
  = [] ++ [recording_path Sample.noon; recording_path Sample.later]
  ∧ audio (booth
      (on_stop Fixture.good_device Sample.later
         (default initial
            (play [StartClicked (Return tt); Capture 0 (EnterStream (Return tt));
                   Audio 0 [1; 2] []]
               (on_stop Fixture.good_device Sample.noon initial)))))
    !! recording_path Sample.noon
    = Some ([], 44100).
Proof.
  pose proof (different_seconds_keep_both
    Fixture.good_device Fixture.good_device Sample.noon Sample.later
    [StartClicked (Return tt); Capture 0 (EnterStream (Return tt)); Audio 0 [1; 2] []]
    initial
    (default initial
       (play [StartClicked (Return tt); Capture 0 (EnterStream (Return tt));
              Audio 0 [1; 2] []]
          (on_stop Fixture.good_device Sample.noon initial)))
    (conj (λ _, eq_refl) (λ _ _ _, eq_refl))
    (conj (λ _, eq_refl) (λ _ _ _, eq_refl))
    eq_refl eq_refl ltac:(discriminate) eq_refl eq_refl) as (_ & H1 & _ & H3).
  split; [exact H3|exact H1].
Defined.

(** X9: two stops within the same clock second use one path: the second
    save replaces what the first one stored, and the path is listed
    twice. *)
Theorem same_second_overwrites D1 D2 t xs a a1 :
  reliable D1 → reliable D2 →
  forallb (λ x, negb (is_stop_click x)) xs = true →
  play xs (on_stop D1 t a) = Some a1 →
  audio (booth (on_stop D1 t a)) !! recording_path t
  = Some (frames (recorder (sess (booth a))), SAMPLE_RATE (recorder (sess (booth a))))
  ∧ audio (booth (on_stop D2 t a1)) !! recording_path t
    = Some (frames (recorder (sess (booth a1))), SAMPLE_RATE (recorder (sess (booth a1))))
  ∧ audio (booth (on_stop D2 t a1))
    = <[recording_path t := (frames (recorder (sess (booth a1))),
                             SAMPLE_RATE (recorder (sess (booth a1))))]>
        (audio (booth a))
  ∧ recorded_files (on_stop D2 t a1)
    = recorded_files a ++ [recording_path t; recording_path t].
Proof.
  intros H1 H2 Hns Hplay.
  destruct (on_stop_reliable D1 t a H1) as (_ & _ & Hf1 & Ha1 & _).
  destruct (on_stop_reliable D2 t a1 H2) as (_ & _ & Hf2 & Ha2 & _).
  destruct (play_keeps_files xs _ _ Hns Hplay) as [Ha Hf].
  rewrite Hf2, Ha2, Hf, Ha, Hf1, Ha1.
  rewrite !lookup_insert_eq, insert_insert_eq.
  by rewrite <- (assoc_L (++)).
Qed.

Lemma same_second_overwrites_witness :
  audio (booth (on_stop Fixture.good_device Sample.noon initial))
    !! recording_path Sample.noon = Some ([], 44100)
  ∧ audio (booth
      (on_stop Fixture.good_device Sample.noon
         (default initial
            (play [StartClicked (Return tt); Capture 0 (EnterStream (Return tt));
                   Audio 0 [1; 2] []]
               (on_stop Fixture.good_device Sample.noon initial)))))
    !! recording_path Sample.noon
    = Some ([[1; 2]], 44100).
Proof.
  pose proof (same_second_overwrites
    Fixture.good_device Fixture.good_device Sample.noon
    [StartClicked (Return tt); Capture 0 (EnterStream (Return tt)); Audio 0 [1; 2] []]
    initial
    (default initial
       (play [StartClicked (Return tt); Capture 0 (EnterStream (Return tt));
              Audio 0 [1; 2] []]
          (on_stop Fixture.good_device Sample.noon initial)))
    (conj (λ _, eq_refl) (λ _ _ _, eq_refl))
    (conj (λ _, eq_refl) (λ _ _ _, eq_refl))
    eq_refl eq_refl) as (H1 & H2 & _).
  split; [exact H1|exact H2].
Defined.

End Sessions.

Section Invariants.
Import Recorder Studio Main App.

Lemma act_status_agrees x a a' :
  clean x →
  recording_status a = recording (recorder (sess (booth a))) →
  act x a = Some a' →
  recording_status a' = recording (recorder (sess (booth a'))).
Proof.
  destruct x as [spawn|D t|E key|tid st|tid indata status]; simpl;
    intros Hclean Hinv H.
  - by simplify_eq.
  - simplify_eq. by destruct (on_stop_reliable D t a Hclean) as (-> & -> & _).
  - simplify_eq. destruct (on_summarize_cases E key a) as (-> & -> & _). done.
  - rewrite (background_recording (Thread tid st) a a') by done.
    by apply background_cases in H as (_ & _ & _ & -> & _).
  - rewrite (background_recording (Deliver tid indata status) a a') by done.
    by apply background_cases in H as (_ & _ & _ & -> & _).
Qed.

(** X10: as long as no thread creation, directory creation or file
    write raises, the status flag kept in the session state and the
    recorder's own flag agree after every sequence of clicks and
    background steps. *)
Theorem status_follows_recorder xs : ∀ a a',
  Forall clean xs →
  recording_status a = recording (recorder (sess (booth a))) →
  play xs a = Some a' →
  recording_status a' = recording (recorder (sess (booth a'))).
Proof.
  induction xs as [|x xs IH]; intros a a' Hclean Hinv Hplay; simpl in Hplay.
  - by simplify_eq.
  - apply Forall_cons in Hclean as [Hx Hxs].
    destruct (act x a) as [a1|] eqn:Hact; [|done].
    eapply IH; [done| |done]. by eapply act_status_agrees.
Qed.

Lemma status_follows_recorder_witness :
  recording_status
    (default initial
       (play [StartClicked (Return tt); Capture 0 (EnterStream (Return tt));
              Audio 0 [1; 2] ["input overflow"];
              StopClicked Fixture.good_device Fixture.morning;
              Capture 0 LoopTest; StartClicked (Return tt)] initial))
  = recording (recorder (sess (booth
      (default initial
         (play [StartClicked (Return tt); Capture 0 (EnterStream (Return tt));
                Audio 0 [1; 2] ["input overflow"];
                StopClicked Fixture.good_device Fixture.morning;
                Capture 0 LoopTest; StartClicked (Return tt)] initial))))).
Proof.
  refine (status_follows_recorder
    [StartClicked (Return tt); Capture 0 (EnterStream (Return tt));
     Audio 0 [1; 2] ["input overflow"];
     StopClicked Fixture.good_device Fixture.morning;
     Capture 0 LoopTest; StartClicked (Return tt)] initial _ _ eq_refl eq_refl).
  repeat constructor.
Defined.

Lemma act_listed_saved x a a' :
  (∀ p, p ∈ recorded_files a → is_Some (audio (booth a) !! p)) →
  act x a = Some a' →
  (∀ p, p ∈ recorded_files a' → is_Some (audio (booth a') !! p))
  ∧ recorded_files a `prefix_of` recorded_files a'.
Proof.
  intros Hinv Hact.
  destruct (is_stop_click x) eqn:Hx.
  - destruct x as [|D t| | |]; try done. simpl in Hact. simplify_eq.
    destruct (on_stop_cases D t a) as (_ & _ & _ & _ & _ & Hcase).
    destruct Hcase as [(Hf & Ha & _)|(e & Hf & Ha & _)]; rewrite Hf, Ha.
    + split; [|by apply prefix_app_r].
      intros p [Hp| ->%list_elem_of_singleton]%elem_of_app.
      * destruct (decide (recording_path t = p)) as [->|Hne].
        -- rewrite lookup_insert_eq. eauto.
        -- rewrite lookup_insert_ne by done. by apply Hinv.
      * rewrite lookup_insert_eq. eauto.
    + done.
  - destruct (act_keeps_files x a a' Hx Hact) as [-> ->]. done.
Qed.

(** X11: every path in the list of recordings, and so the "latest
    recording" offered for transcription, names a file that a successful
    write has stored; the list only grows at its end. *)
Theorem listed_recordings_were_saved xs : ∀ a a',
  (∀ p, p ∈ recorded_files a → is_Some (audio (booth a) !! p)) →
  play xs a = Some a' →
  (∀ p, p ∈ recorded_files a' → is_Some (audio (booth a') !! p))
  ∧ recorded_files a `prefix_of` recorded_files a'
  ∧ (∀ f, last_file a' = Some f → is_Some (audio (booth a') !! f)).
Proof.
  induction xs as [|x xs IH]; intros a a' Hinv Hplay; simpl in Hplay.
  - simplify_eq. split; [done|]. split; [done|].
    intros f Hf. apply Hinv. unfold last_file in Hf.
    apply last_Some in Hf as [l ->]. apply elem_of_app. right. by left.
  - destruct (act x a) as [a1|] eqn:Hact; [|done].
    destruct (act_listed_saved x a a1 Hinv Hact) as [Hinv1 Hpre1].
    destruct (IH a1 a' Hinv1 Hplay) as (Hinv' & Hpre' & Hlast).
    split; [done|]. split; [by etrans|done].
Qed.

Lemma listed_recordings_were_saved_witness :
  is_Some (audio (booth
    (default initial
       (play [StartClicked (Return tt);
              StopClicked Fixture.full_device Sample.noon;
              StopClicked Fixture.good_device Sample.later] initial)))
    !! "recordings/recording_20261103_120009.wav").
Proof.
  refine (proj2 (proj2 (listed_recordings_were_saved
    [StartClicked (Return tt);
     StopClicked Fixture.full_device Sample.noon;
     StopClicked Fixture.good_device Sample.later] initial _ _ eq_refl)) _ eq_refl).
  intros p Hp. by apply elem_of_nil in Hp.
Defined.

End Invariants.

Section SampleRate.
Import Recorder Studio Main App.

Lemma step_sample_rate e s s' :
  step e s = Some s' → SAMPLE_RATE (recorder s') = SAMPLE_RATE (recorder s).
Proof.
  destruct e as [[[]|x]| |tid st|tid indata status]; simpl; intros H;
    simplify_eq/=; try done.
  - by rewrite (record_keeps_recorder _ _ _ _ H).
  - destruct (threads s !! tid) as [[]|]; simplify_eq. by destruct status.
Qed.

Lemma act_sample_rate x a a' :
  SAMPLE_RATE (recorder (sess (booth a))) = 44100 →
  (∀ p d r, audio (booth a) !! p = Some (d, r) → r = 44100) →
  act x a = Some a' →
  SAMPLE_RATE (recorder (sess (booth a'))) = 44100
  ∧ ∀ p d r, audio (booth a') !! p = Some (d, r) → r = 44100.
Proof.
  intros Hrate Hinv Hact.
  destruct x as [spawn|D t|E key|tid st|tid indata status]; simpl in Hact.
  - simplify_eq. destruct (on_start_cases spawn a) as (-> & -> & _).
    split; [by destruct spawn as [[]|?]|done].
  - simplify_eq.
    destruct (on_stop_cases D t a) as (-> & _ & _ & _ & _ & Hcase).
    split; [done|].
    destruct Hcase as [(_ & -> & _)|(e & _ & -> & _)]; [|done].
    intros p d r. destruct (decide (recording_path t = p)) as [->|Hne].
    + rewrite lookup_insert_eq. intros; by simplify_eq.
    + rewrite lookup_insert_ne by done. apply Hinv.
  - simplify_eq. destruct (on_summarize_cases E key a) as (-> & _). done.
  - apply background_cases in Hact as (Hstep & -> & _).
    by rewrite (step_sample_rate _ _ _ Hstep).
  - apply background_cases in Hact as (Hstep & -> & _).
    by rewrite (step_sample_rate _ _ _ Hstep).
Qed.

(** X12: nothing the application does changes the recorder's sample
    rate, so starting from a recorder at 44100 Hz on a disk whose stored
    recordings are at 44100 Hz, every recording stored later is written at
    44100 Hz as well. *)
Theorem recordings_at_44100 xs : ∀ a a',
  SAMPLE_RATE (recorder (sess (booth a))) = 44100 →
  (∀ p d r, audio (booth a) !! p = Some (d, r) → r = 44100) →
  play xs a = Some a' →
  SAMPLE_RATE (recorder (sess (booth a'))) = 44100
  ∧ ∀ p d r, audio (booth a') !! p = Some (d, r) → r = 44100.
Proof.
  induction xs as [|x xs IH]; intros a a' Hrate Hinv Hplay; simpl in Hplay.
  - by simplify_eq.
  - destruct (act x a) as [a1|] eqn:Hact; [|done].
    destruct (act_sample_rate x a a1 Hrate Hinv Hact) as [Hrate1 Hinv1].
    by eapply IH.
Qed.

Lemma recordings_at_44100_witness :
  SAMPLE_RATE (recorder (sess (booth
    (default initial
       (play [StartClicked (Return tt); Capture 0 (EnterStream (Return tt));
              Audio 0 [1; 2] []; StopClicked Fixture.good_device Sample.noon]
          initial))))) = 44100.
Proof.
  refine (proj1 (recordings_at_44100
    [StartClicked (Return tt); Capture 0 (EnterStream (Return tt));
     Audio 0 [1; 2] []; StopClicked Fixture.good_device Sample.noon]
    initial _ eq_refl _ eq_refl)).
  intros p d r Hp. change (audio (booth initial)) with (∅ : gmap string (list Chunk * Z)) in Hp.
  by rewrite lookup_empty in Hp.
Defined.

End SampleRate.

(** * Further properties of the pipeline *)


Section PipelineProperties.
Import App Main.





(** X15: when the notes file cannot be opened, nothing is written; the
    summary has been posted for and rendered by then, and the failure
    to save is shown under the same "Failed to generate summary" message
    as a failure of the summarizer.  (An error that is not an
    [Exception] instance would pass through both handlers instead.) *)
Theorem notes_open_failure_reported (E : env) key last_file w res v e :
  str_truthy key = true →
  engine_outcome E last_file = Return res →
  str_truthy (text res) = true →
  Groq.summarize_outcome E (Groq.new key) (text res) = Return v →
  open_append E default_notes = Raise e →
  transcribe_and_summarize E key last_file w
  = if is_exception e then
      ({| files := files w;
          logged := logged w ++ [(ERROR, "Failed to save summary: " +:+ exn_str e)];
          posted := posted w ++ [Groq.build_request (Groq.new key) (text res)];
          rendered := rendered w ++
            [st_spinner "Transcribing audio..."; st_markdown "### Transcription";
             st_write (JStr (text res)); st_spinner "Generating summary...";
             st_markdown "### Summary"; st_write v;
             st_error ("Failed to generate summary: " +:+ exn_str e)] |},
       Return tt)
    else
      ({| files := files w; logged := logged w;
          posted := posted w ++ [Groq.build_request (Groq.new key) (text res)];
          rendered := rendered w ++
            [st_spinner "Transcribing audio..."; st_markdown "### Transcription";
             st_write (JStr (text res)); st_spinner "Generating summary...";
             st_markdown "### Summary"; st_write v] |},
       Raise e).
Proof.
  intros Hkey Heng Ht Hsum Hopen.
  rewrite (handler_summary_returned E key last_file w res _ Hkey Heng Ht Hsum).
  rewrite save_summary_cases, Hopen.
  destruct (is_exception e) eqn:He; cbn [files logged posted rendered]; rewrite He;
    [|done].
  by rewrite <- !(assoc_L (++)).
Qed.

Lemma notes_open_failure_reported_witness :
  files (transcribe_and_summarize Fixture.locked_env
           "token" "recordings/recording_20261103_120000.wav" empty_world).1 = ∅
  ∧ last (rendered (transcribe_and_summarize Fixture.locked_env
           "token" "recordings/recording_20261103_120000.wav" empty_world).1)
    = Some (st_error
        "Failed to generate summary: [Errno 13] Permission denied: 'class_notes.txt'").
Proof.
  rewrite (notes_open_failure_reported Fixture.locked_env
    "token" "recordings/recording_20261103_120000.wav" empty_world
    (mkWhisperResult "hello world" "en") (JStr "Summary: hello") Fixture.locked_notes
    eq_refl eq_refl eq_refl eq_refl eq_refl).
  split; reflexivity.
Defined.

(** X16: of a well-formed reply only the first choice is read: whatever
    other fields and further choices the reply carries, the summary is
    the [content] of the [message] of [choices[0]]; and a reply whose
    list of choices is empty raises [IndexError]. *)
Theorem extract_content_first_choice fields f1 f2 others v :
  dict_get fields "choices" = Some (JArr (JObj f1 :: others)) →
  dict_get f1 "message" = Some (JObj f2) →
  dict_get f2 "content" = Some v →
  Groq.extract_content (JObj fields) = Return v
  ∧ ∀ fields',
      dict_get fields' "choices" = Some (JArr []) →
      Groq.extract_content (JObj fields')
      = Raise (Exn "IndexError" "list index out of range").
Proof.
  intros Hc Hm Hv. split.
  - unfold Groq.extract_content, rbind, subscript. rewrite Hc. simpl.
    by rewrite Hm, Hv.
  - intros fields' Hc'.
    unfold Groq.extract_content, rbind, subscript. by rewrite Hc'.
Qed.

Lemma extract_content_first_choice_witness :
  Groq.extract_content
    (JObj [("id", JStr "cmpl-1");
           ("choices", JArr [JObj [("index", JInt 0);
                                   ("message", JObj [("role", JStr "assistant");
                                                     ("content", JStr "first")])];
                             JObj [("index", JInt 1);
                                   ("message", JObj [("role", JStr "assistant");
                                                     ("content", JStr "second")])]])])
  = Return (JStr "first").
Proof.
  exact (proj1 (extract_content_first_choice
    [("id", JStr "cmpl-1");
     ("choices", JArr [JObj [("index", JInt 0);
                             ("message", JObj [("role", JStr "assistant");
                                               ("content", JStr "first")])];
                       JObj [("index", JInt 1);
                             ("message", JObj [("role", JStr "assistant");
                                               ("content", JStr "second")])]])]
    [("index", JInt 0);
     ("message", JObj [("role", JStr "assistant"); ("content", JStr "first")])]
    [("role", JStr "assistant"); ("content", JStr "first")]
    [JObj [("index", JInt 1);
           ("message", JObj [("role", JStr "assistant"); ("content", JStr "second")])]]
    (JStr "first") eq_refl eq_refl eq_refl)).
Defined.

End PipelineProperties.

Section PageFrames.
Import Recorder Studio Main App.

Lemma extends_refl m : extends m m.
Proof. intros f c Hf. exists "". by rewrite append_nil_r. Qed.

Lemma extends_trans m1 m2 m3 : extends m1 m2 → extends m2 m3 → extends m1 m3.
Proof.
  intros H12 H23 f c Hf.
  destruct (H12 f c Hf) as [s1 H1]. destruct (H23 f _ H1) as [s2 H2].
  exists (s1 +:+ s2). by rewrite <- append_assoc.
Qed.

Lemma extends_append (m : gmap string string) f s :
  extends m (<[f := default "" (m !! f) +:+ s]> m).
Proof.
  intros g c Hg. destruct (decide (f = g)) as [->|Hne].
  - rewrite lookup_insert_eq, Hg. simpl. eauto.
  - rewrite lookup_insert_ne by done. exists "". by rewrite append_nil_r.
Qed.

Lemma save_summary_extends E v filename w :
  extends (files w) (files (save_summary E v filename w).1).
Proof.
  rewrite save_summary_cases.
  destruct (open_append E filename) as [[]|e];
    [|destruct (is_exception e); apply extends_refl].
  destruct (add_str v nl) as [line|e]; [destruct (encodable E line)|];
    cbn [fst files].
  - apply (extends_append (files w) filename (header_of (now E) +:+ line)).
  - apply (extends_append (files w) filename (header_of (now E))).
  - apply (extends_append (files w) filename (header_of (now E))).
Qed.

(** The handler only ever appends to text files. *)
Lemma handler_extends E key last_file w :
  extends (files w) (files (transcribe_and_summarize E key last_file w).1).
Proof.
  destruct (str_truthy key) eqn:Hkey.
  2: { unfold transcribe_and_summarize. rewrite Hkey. apply extends_refl. }
  destruct (engine_outcome E last_file) as [res|e] eqn:Heng.
  - destruct (str_truthy (text res)) eqn:Ht.
    + destruct (Groq.summarize_outcome E (Groq.new key) (text res)) as [v|e] eqn:Hsum.
      * rewrite (handler_summary_returned E key last_file w res v Hkey Heng Ht Hsum).
        pose proof (save_summary_extends E v default_notes
          {| files := files w; logged := logged w;
             posted := posted w ++ [Groq.build_request (Groq.new key) (text res)];
             rendered := rendered w ++
               [st_spinner "Transcribing audio..."; st_markdown "### Transcription";
                st_write (JStr (text res)); st_spinner "Generating summary...";
                st_markdown "### Summary"; st_write v] |}) as Hext.
        destruct (save_summary E v default_notes _) as [w2 [[]|e]]; [done|].
        by destruct (is_exception e).
      * rewrite (handler_summarizer_raises E key last_file w res e Hkey Heng Ht Hsum).
        apply extends_refl.
    + destruct (handler_short_circuit E key last_file w (Some (text res)) Hkey)
        as (_ & -> & _); [|by simpl|apply extends_refl].
      by rewrite transcribe_audio_unfold, Heng.
  - destruct (is_exception e) eqn:He.
    + destruct (handler_short_circuit E key last_file w None Hkey)
        as (_ & -> & _); [|done|apply extends_refl].
      by rewrite transcribe_audio_unfold, Heng, He.
    + rewrite (handler_transcribe_escapes E key last_file w e Hkey Heng He).
      apply extends_refl.
Qed.

Lemma act_page_frame x a a' :
  is_summarize_click x = false → act x a = Some a' →
  files (page a') = files (page a)
  ∧ posted (page a') = posted (page a)
  ∧ logged (page a') = logged (page a).
Proof.
  destruct x as [spawn|D t|E key|tid st|tid indata status]; simpl;
    intros Hns H; try done.
  - simplify_eq. by destruct (on_start_cases spawn a) as (_ & _ & _ & ? & ? & ? & _).
  - simplify_eq. by destruct (on_stop_cases D t a) as (_ & _ & ? & ? & ? & _).
  - by apply background_cases in H as (_ & _ & _ & _ & ->).
  - by apply background_cases in H as (_ & _ & _ & _ & ->).
Qed.

(** X17: recording never touches the pipeline: along any sequence of
    start and stop clicks and background steps without a click on
    "Transcribe and Summarize", no text file changes, no request is
    posted and the pipeline logs nothing. *)
Theorem recording_leaves_pipeline_alone xs : ∀ a a',
  forallb (λ x, negb (is_summarize_click x)) xs = true →
  play xs a = Some a' →
  files (page a') = files (page a)
  ∧ posted (page a') = posted (page a)
  ∧ logged (page a') = logged (page a).
Proof.
  induction xs as [|x xs IH]; intros a a' Hns Hplay; simpl in *.
  - by simplify_eq.
  - apply andb_true_iff in Hns as [Hx Hxs]. apply negb_true_iff in Hx.
    destruct (act x a) as [a1|] eqn:Hact; [|done].
    destruct (IH _ _ Hxs Hplay) as (-> & -> & ->).
    by apply (act_page_frame x).
Qed.

Lemma recording_leaves_pipeline_alone_witness :
  posted (page (default initial
    (play [StartClicked (Return tt); Capture 0 (EnterStream (Return tt));
           Audio 0 [1; 2] []; StopClicked Fixture.full_device Sample.noon;
           StopClicked Fixture.good_device Sample.later] initial))) = [].
Proof.
  exact (proj1 (proj2 (recording_leaves_pipeline_alone
    [StartClicked (Return tt); Capture 0 (EnterStream (Return tt));
     Audio 0 [1; 2] []; StopClicked Fixture.full_device Sample.noon;
     StopClicked Fixture.good_device Sample.later] initial _ eq_refl eq_refl))).
Defined.

Lemma act_extends x a a' :
  act x a = Some a' → extends (files (page a)) (files (page a')).
Proof.
  intros Hact. destruct (is_summarize_click x) eqn:Hx.
  - destruct x as [| |E key| |]; try done. simpl in Hact. simplify_eq.
    unfold on_summarize. destruct (last_file a); [|apply extends_refl].
    apply handler_extends.
  - destruct (act_page_frame x a a' Hx Hact) as (-> & _). apply extends_refl.
Qed.

(** X18: the text files are append-only for the whole application:
    whatever is clicked and whatever fails, a file that was there is
    still there afterwards and its old content is a prefix of the new
    one. *)
Theorem notes_only_grow xs : ∀ a a',
  play xs a = Some a' → extends (files (page a)) (files (page a')).
Proof.
  induction xs as [|x xs IH]; intros a a' Hplay; simpl in Hplay.
  - simplify_eq. apply extends_refl.
  - destruct (act x a) as [a1|] eqn:Hact; [|done].
    eapply extends_trans; [by eapply act_extends|by apply IH].
Qed.

Lemma notes_only_grow_witness :
  extends
    (files (page (default initial
       (play [StopClicked Fixture.good_device Sample.noon;
              SummarizeClicked
                (Sample.env_with Sample.heard_hello (Return Sample.ok_hello) Sample.noon)
                "token"] initial))))
    (files (page (default initial
       (play [SummarizeClicked
                (Sample.env_with Sample.heard_hello (Return Fixture.null_content)
                   Sample.later) "token"]
          (default initial
             (play [StopClicked Fixture.good_device Sample.noon;
                    SummarizeClicked
                      (Sample.env_with Sample.heard_hello (Return Sample.ok_hello)
                         Sample.noon) "token"] initial)))))).
Proof.
  exact (notes_only_grow
    [SummarizeClicked
       (Sample.env_with Sample.heard_hello (Return Fixture.null_content) Sample.later)
       "token"]
    (default initial
       (play [StopClicked Fixture.good_device Sample.noon;
              SummarizeClicked
                (Sample.env_with Sample.heard_hello (Return Sample.ok_hello) Sample.noon)
                "token"] initial))
    _ eq_refl).
Defined.

(** X19: the summarize button works on the recording of the latest
    successful stop: after a stop on a working disk and any further
    actions short of another stop, a click transcribes and summarizes the
    file that stop saved, and touches neither the recorder nor the list
    of recordings. *)
Theorem summarize_uses_latest D t E key xs a a1 :
  reliable D →
  forallb (λ x, negb (is_stop_click x)) xs = true →
  play xs (on_stop D t a) = Some a1 →
  last_file a1 = Some (recording_path t)
  ∧ page (on_summarize E key a1)
    = (transcribe_and_summarize E key (recording_path t) (page a1)).1
  ∧ booth (on_summarize E key a1) = booth a1
  ∧ recorded_files (on_summarize E key a1) = recorded_files a1.
Proof.
  intros Hrel Hns Hplay.
  destruct (on_stop_reliable D t a Hrel) as (_ & _ & Hf & _).
  destruct (play_keeps_files xs _ _ Hns Hplay) as [_ Hf1].
  assert (last_file a1 = Some (recording_path t)) as Hlast.
  { unfold last_file. by rewrite Hf1, Hf, last_snoc. }
  unfold on_summarize. by rewrite Hlast.
Qed.

Lemma summarize_uses_latest_witness :
  last_file (default initial
    (play [StartClicked (Return tt)]
       (on_stop Fixture.good_device Fixture.morning initial)))
  = Some "recordings/recording_20261103_090507.wav".
Proof.
  exact (proj1 (summarize_uses_latest Fixture.good_device Fixture.morning
    Fixture.locked_env "token" [StartClicked (Return tt)] initial
    (default initial
       (play [StartClicked (Return tt)]
          (on_stop Fixture.good_device Fixture.morning initial)))
    (conj (λ _, eq_refl) (λ _ _ _, eq_refl)) eq_refl eq_refl)).
Defined.

End PageFrames.
